(** * porkbun-dns-migrator: export and import of DNS record sets

    A shallow embedding of [dns_export.py] (resolver answers to the
    canonical JSON document) and [dns_import.py] (canonical document to
    Porkbun API calls), and the properties of the record codec and of the
    reconciliation loop.

    Scope of the model.
    - JSON scalars (null, booleans, integers, strings) are [Py.value];
      floats and nested values inside a record field are not modelled.
    - A Python [str] is the string of its UTF-8 bytes; where the program
      works on characters ([str.split()], unpacking a string) the
      characters are code points, and [Py.chars] and [Py.encode] go from
      one to the other.
    - A Python dict of record fields is a [gmap string Py.value]; the
      dicts whose iteration order drives the program (the import document,
      the per-type record table of the exporter) are association lists
      kept in insertion order.
    - The resolver is a function of (domain, type); the provider is a
      state [W] with a transition [post] answering each HTTP request. A
      response body that decodes as JSON is an object, the records it
      lists are objects with scalar fields, and its [errors] member, which
      only the verbose dump of [create_record] iterates over, is a list
      when present.
    - Output written with [print] is kept only where it reports the outcome
      of a record; the [verbose] dumps are dropped, but the exceptions the
      verbose code paths can raise are kept. *)

From Stdlib Require Import ZArith String Ascii List DecimalString.
From stdpp Require Import base gmap strings list option.

Local Open Scope string_scope.
Local Open Scope Z_scope.

(** ** Python values and string helpers *)

Module Py.

Inductive value : Type :=
| PNone
| PBool (b : bool)
| PInt (z : Z)
| PStr (s : string).

#[global] Instance value_eq_dec : EqDecision value.
Proof. solve_decision. Defined.

(** The exceptions the two scripts can meet. *)
Inductive exn : Type :=
| KeyError (key : string)
| AttributeError
| ValueError
| JSONDecodeError
| FileNotFoundError
| RequestException.

(** [bool(v)]. *)
Definition truthy (v : value) : bool :=
  match v with
  | PNone => false
  | PBool b => b
  | PInt z => negb (z =? 0)
  | PStr s => negb (String.eqb s "")
  end.

(** [a == b]; a bool compares as the integer 0 or 1. *)
Definition eqb (a b : value) : bool :=
  match a, b with
  | PNone, PNone => true
  | PBool x, PBool y => Bool.eqb x y
  | PInt x, PInt y => x =? y
  | PBool x, PInt y => Z.b2z x =? y
  | PInt x, PBool y => x =? Z.b2z y
  | PStr x, PStr y => String.eqb x y
  | _, _ => false
  end.

Definition str_int (z : Z) : string := NilZero.string_of_int (Z.to_int z).

(** [str(v)]. *)
Definition str (v : value) : string :=
  match v with
  | PNone => "None"
  | PBool true => "True"
  | PBool false => "False"
  | PInt z => str_int z
  | PStr s => s
  end.

(** [v is None]. *)
Definition is_none (v : value) : bool :=
  match v with PNone => true | _ => false end.

(** [s.split(sep)] for a one-character separator. *)
Fixpoint split (sep : ascii) (s : string) : list string :=
  match s with
  | EmptyString => [EmptyString]
  | String c rest =>
      if Ascii.eqb c sep then EmptyString :: split sep rest
      else match split sep rest with
           | [] => [String c EmptyString]
           | w :: ws => String c w :: ws
           end
  end.

(** [sep.join(l)]. *)
Definition join (sep : string) (l : list string) : string := String.concat sep l.

(** [l[-n:]] for n > 0. *)
Definition last_n {A} (n : nat) (l : list A) : list A := drop (length l - n) l.

(** [s.endswith(c)] for a one-character suffix. *)
Fixpoint endswith (c : ascii) (s : string) : bool :=
  match s with
  | EmptyString => false
  | String a EmptyString => Ascii.eqb a c
  | String _ rest => endswith c rest
  end.

Fixpoint lstrip (c : ascii) (s : string) : string :=
  match s with
  | String a rest => if Ascii.eqb a c then lstrip c rest else s
  | EmptyString => EmptyString
  end.

Fixpoint rstrip (c : ascii) (s : string) : string :=
  match s with
  | EmptyString => EmptyString
  | String a rest =>
      match rstrip c rest with
      | EmptyString => if Ascii.eqb a c then EmptyString else String a EmptyString
      | r => String a r
      end
  end.

(** The double quote character. *)
Definition dquote : ascii := "034"%char.

(** [s.strip(c)] for a one-character set. *)
Definition strip (c : ascii) (s : string) : string := rstrip c (lstrip c s).

(** A byte that continues a UTF-8 sequence: [10xxxxxx]. *)
Definition is_continuation (b : ascii) : bool :=
  let n := N_of_ascii b in (128 <=? n)%N && (n <? 192)%N.

(** The continuation bytes at the head of the string, and the characters
    after them. *)
Fixpoint chars_from (s : string) : string * list string :=
  match s with
  | EmptyString => (EmptyString, [])
  | String b rest =>
      let '(pending, cs) := chars_from rest in
      if is_continuation b then (String b pending, cs)
      else (EmptyString, String b pending :: cs)
  end.

(** [list(s)]: the characters of a string, each a string of one
    character (a lead byte and its continuation bytes). *)
Definition chars (s : string) : list string :=
  let '(pending, cs) := chars_from s in
  match pending with
  | EmptyString => cs
  | _ => pending :: cs
  end.

(** The UTF-8 bytes of a code point. *)
Definition utf8 (c : N) : string :=
  let byte (n : N) := ascii_of_N n in
  let low (n : N) := byte (128 + n mod 64)%N in
  if (c <? 128)%N then String (byte c) EmptyString
  else if (c <? 2048)%N then String (byte (192 + c / 64)%N) (String (low c) EmptyString)
  else if (c <? 65536)%N then
    String (byte (224 + c / 4096)%N)
      (String (low (c / 64)%N) (String (low c) EmptyString))
  else
    String (byte (240 + c / 262144)%N)
      (String (low (c / 4096)%N)
        (String (low (c / 64)%N) (String (low c) EmptyString))).

(** The string of a sequence of code points. *)
Definition encode (cs : list N) : string :=
  String.concat EmptyString (utf8 <$> cs).

(** An insertion-ordered dict with string keys: [d[k] = v], [k in d],
    [d.pop(k, None)]. *)
Abbreviation odict V := (list (string * V)).

Fixpoint dict_set {V} (k : string) (v : V) (d : odict V) : odict V :=
  match d with
  | [] => [(k, v)]
  | (k', v') :: rest =>
      if String.eqb k' k then (k', v) :: rest else (k', v') :: dict_set k v rest
  end.

Definition dict_mem {V} (k : string) (d : odict V) : bool :=
  existsb (fun kv => String.eqb (fst kv) k) d.

Definition dict_pop {V} (k : string) (d : odict V) : odict V :=
  filter (fun kv => negb (String.eqb (fst kv) k)) d.

End Py.

Import Py.

(** ** dns_export.py *)

Module DnsExport.

(** One resolver answer: [str(rdata)] and the attributes the exporter
    reads ([exchange], [preference], [target], [priority], [weight],
    [port], [replacement], [order]); reading an attribute the object does
    not have raises [AttributeError]. *)
Record rdata : Type := {
  rd_text : string;
  rd_attrs : gmap string value
}.

Record answer : Type := {
  ans_rdatas : list rdata;
  ans_ttl : Z
}.

Inductive resolution : Type :=
| Answers (a : answer)
| NXDOMAIN
| NoAnswer
| ResolverFailure.

(** An element of [records[record_type]]: a string in raw mode, a tuple
    otherwise. *)
Inductive item : Type :=
| IStr (s : string)
| ITuple (fields : list value).

Definition prio_types : list string := ["MX"; "SRV"; "NAPTR"].

Definition is_prio_type (record_type : string) : bool :=
  bool_decide (record_type ∈ prio_types).

Definition getattr (r : rdata) (name : string) : option value := rd_attrs r !! name.

(** The body of the list comprehension of [get_records] for one [rdata];
    [None] when an attribute is missing. *)
Definition decode_rdata (record_type : string) (raw_output : bool) (ttl : Z)
    (r : rdata) : option item :=
  if raw_output then Some (IStr (rd_text r))
  else if is_prio_type record_type then
    if String.eqb record_type "MX" then
      exchange ← getattr r "exchange";
      preference ← getattr r "preference";
      Some (ITuple [PStr (str exchange); preference; PInt ttl])
    else if String.eqb record_type "SRV" then
      target ← getattr r "target";
      priority ← getattr r "priority";
      weight ← getattr r "weight";
      port ← getattr r "port";
      Some (ITuple [PStr (str target); priority; weight; port; PInt ttl])
    else
      replacement ← getattr r "replacement";
      order ← getattr r "order";
      preference ← getattr r "preference";
      Some (ITuple [PStr (str replacement); order; preference; PInt ttl])
  else Some (ITuple [PStr (rd_text r); PInt ttl]).

Section Resolver.

Variable resolve : string → string → resolution.

(** The loop over [record_types]: a type whose query or decoding raises
    leaves no entry. *)
Fixpoint query_all (domain : string) (record_types : list string) (raw_output : bool)
    (records : odict (list item)) : odict (list item) :=
  match record_types with
  | [] => records
  | record_type :: rest =>
      let records' :=
        match resolve domain record_type with
        | Answers a =>
            match mapM (decode_rdata record_type raw_output (ans_ttl a)) (ans_rdatas a) with
            | Some items => dict_set record_type items records
            | None => records
            end
        | NXDOMAIN | NoAnswer | ResolverFailure => records
        end in
      query_all domain rest raw_output records'
  end.

Definition get_records (domain : string) (record_types : list string)
    (raw_output keep_a_aaaa : bool) : odict (list item) :=
  let records := query_all domain record_types raw_output [] in
  if dict_mem "CNAME" records && negb keep_a_aaaa
  then dict_pop "AAAA" (dict_pop "A" records)
  else records.

End Resolver.

(** Tuple unpacking [x1, ..., xn = record]; a string unpacks into its
    characters. [None] is [ValueError]. *)
Definition unpack (n : nat) (record : item) : option (list value) :=
  let fields :=
    match record with
    | ITuple fields => fields
    | IStr s => PStr <$> chars s
    end in
  if bool_decide (length fields = n) then Some fields else None.

(** The f-string ["{weight} {port} {target}"]. *)
Definition srv_content (weight port target : value) : string :=
  str weight +:+ " " +:+ str port +:+ " " +:+ str target.

(** The body of the inner loop of [format_records]: the [record_data] of
    one record, [None] when unpacking or [strip] raises. *)
Definition format_record (record_type : string) (record : item)
    : option (gmap string value) :=
  if is_prio_type record_type then
    if String.eqb record_type "MX" then
      match unpack 3 record with
      | Some [content; prio; ttl] =>
          Some (<["prio" := PStr (str prio)]>
                (<["ttl" := PStr (str ttl)]> {["content" := content]}))
      | _ => None
      end
    else if String.eqb record_type "SRV" then
      match unpack 5 record with
      | Some [target; priority; weight; port; ttl] =>
          Some (<["prio" := PStr (str priority)]>
                (<["ttl" := PStr (str ttl)]>
                 {["content" := PStr (srv_content weight port target)]}))
      | _ => None
      end
    else
      match unpack 4 record with
      | Some [replacement; order; preference; ttl] =>
          Some (<["preference" := PStr (str preference)]>
                (<["order" := PStr (str order)]>
                 (<["ttl" := PStr (str ttl)]> {["content" := replacement]})))
      | _ => None
      end
  else if String.eqb record_type "TXT" then
    match unpack 2 record with
    | Some [PStr content; ttl] =>
        Some (<["ttl" := PStr (str ttl)]> {["content" := PStr (strip dquote content)]})
    | _ => None
    end
  else
    match unpack 2 record with
    | Some [content; ttl] =>
        Some (<["ttl" := PStr (str ttl)]> {["content" := content]})
    | _ => None
    end.

(** [formatted[domain]], built type by type. *)
Fixpoint format_types (records : odict (list item))
    (formatted : odict (list (gmap string value)))
    : option (odict (list (gmap string value))) :=
  match records with
  | [] => Some formatted
  | (record_type, record_list) :: rest =>
      entries ← mapM (format_record record_type) record_list;
      format_types rest (dict_set record_type entries formatted)
  end.

Definition format_records (domain : string) (records : odict (list item))
    : option (string * odict (list (gmap string value))) :=
  by_type ← format_types records [];
  Some (domain, by_type).

End DnsExport.

(** ** dns_import.py *)

Module DnsImport.

Definition BASE_URL : string := "https://porkbun.com/api/json/v3".

Record credentials : Type := {
  API_KEY : string;
  SECRET_KEY : string
}.

(** [os.environ.get] of the two variables the module reads when it is
    loaded, [None] when a variable is not set. *)
Record environ : Type := {
  PORKBUN_API_KEY : option string;
  PORKBUN_SECRET_KEY : option string
}.

(** [if not API_KEY or not SECRET_KEY: sys.exit(1)]: the credentials the
    module goes on with, [None] when it exits. *)
Definition load_credentials (env : environ) : option credentials :=
  match PORKBUN_API_KEY env, PORKBUN_SECRET_KEY env with
  | Some api_key, Some secret_key =>
      if String.eqb api_key "" || String.eqb secret_key "" then None
      else Some {| API_KEY := api_key; SECRET_KEY := secret_key |}
  | _, _ => None
  end.

(** The four vendor operations, as the URL paths the script builds. *)
Inductive endpoint : Type :=
| Retrieve (root_domain : string)
| RetrieveByNameType (root_domain record_type subdomain : string)
| Create (root_domain : string)
| Edit (root_domain record_id : string).

Definition url (e : endpoint) : string :=
  match e with
  | Retrieve d => BASE_URL +:+ "/dns/retrieve/" +:+ d
  | RetrieveByNameType d t s =>
      BASE_URL +:+ "/dns/retrieveByNameType/" +:+ d +:+ "/" +:+ t +:+ "/" +:+ s
  | Create d => BASE_URL +:+ "/dns/create/" +:+ d
  | Edit d i => BASE_URL +:+ "/dns/edit/" +:+ d +:+ "/" +:+ i
  end.

(** [requests.post(url, json=payload)]. *)
Record request : Type := {
  req_endpoint : endpoint;
  req_json : gmap string value
}.

(** The decoded body of a response: the keys the script reads. *)
Record api_result : Type := {
  status : option value;
  records : option (list (gmap string value))
}.

Inductive response : Type :=
| ConnectionFailed            (* [requests.post] raises *)
| NotJson                     (* [response.json()] raises JSONDecodeError *)
| Json (result : api_result).

(** What [process_record] reports about a record. *)
Inductive outcome : Type :=
| Skipped
| Updated (status : value)
| Created (status : value)
| MissingPrio
| MissingKey (key : string)
| Unexpected (e : exn).

Inductive event : Type :=
| Sent (r : request)
| Reported (name record_type : string) (o : outcome).

Inductive result (A : Type) : Type :=
| Ok (a : A)
| Raise (e : exn).
Arguments Ok {A} a.
Arguments Raise {A} e.

(** The import document: a list of dicts from domain to a dict from
    record type to a list of records, in document order. *)
Abbreviation document := (list (odict (odict (list (gmap string value))))).

Definition is_prio_type (record_type : string) : bool :=
  bool_decide (record_type ∈ ["MX"; "SRV"; "NAPTR"]).

(** ['.'.join(domain.split('.')[-2:])]. *)
Definition root_domain (domain : string) : string :=
  join "." (last_n 2 (split "." domain)).

(** [domain.split('.')[0]]. *)
Definition first_label (domain : string) : string :=
  match split "." domain with
  | label :: _ => label
  | [] => ""
  end.

(** The [name] both [create_record] and [update_record] put in the payload. *)
Definition payload_name (domain : string) : string :=
  if negb (String.eqb domain (root_domain domain)) then first_label domain else "@".

(** The body of the candidate loop of [get_existing_record]; [Raise] is the
    KeyError of a candidate without the key read. *)
Fixpoint find_match (record_type : string) (content prio : value)
    (candidates : list (gmap string value)) : result (option (gmap string value)) :=
  match candidates with
  | [] => Ok None
  | record :: rest =>
      if truthy content then
        match record !! "content" with
        | None => Raise (KeyError "content")
        | Some c =>
            if eqb c content then
              if is_prio_type record_type && truthy prio then
                match record !! "prio" with
                | None => Raise (KeyError "prio")
                | Some p =>
                    if String.eqb (str p) (str prio) then Ok (Some record)
                    else find_match record_type content prio rest
                end
              else Ok (Some record)
            else find_match record_type content prio rest
        end
      else find_match record_type content prio rest
  end.

(** [result['status'] == 'SUCCESS' and result.get('records')], then the loop. *)
Definition scan_result (record_type : string) (content prio : value) (r : api_result)
    : result (option (gmap string value)) :=
  match status r with
  | None => Raise (KeyError "status")
  | Some st =>
      if eqb st (PStr "SUCCESS") then
        match records r with
        | Some (c :: cs) => find_match record_type content prio (c :: cs)
        | Some [] | None => Ok None
        end
      else Ok None
  end.

Section Provider.

Context {W : Type}.
Variable post : W → request → response * W.
Variable cred : credentials.

(** Computations against the provider: a result or an exception, the
    events so far, the provider's next state. *)
Definition M (A : Type) : Type := W → result A * list event * W.

Definition ret {A} (a : A) : M A := λ w, (Ok a, [], w).

Definition raise {A} (e : exn) : M A := λ w, (Raise e, [], w).

Definition bind {A B} (m : M A) (k : A → M B) : M B := λ w,
  match m w with
  | (Ok a, t, w') => let '(r, t', w'') := k a w' in (r, (t ++ t')%list, w'')
  | (Raise e, t, w') => (Raise e, t, w')
  end.

(** [try: m except e: h e]. *)
Definition catch {A} (m : M A) (h : exn → M A) : M A := λ w,
  match m w with
  | (Raise e, t, w') => let '(r, t', w'') := h e w' in (r, (t ++ t')%list, w'')
  | ok => ok
  end.

Definition report (name record_type : string) (o : outcome) : M unit :=
  λ w, (Ok tt, [Reported name record_type o], w).

Definition http_post (e : endpoint) (payload : gmap string value) : M response := λ w,
  let req := {| req_endpoint := e; req_json := payload |} in
  let '(resp, w') := post w req in
  match resp with
  | ConnectionFailed => (Raise RequestException, [Sent req], w')
  | _ => (Ok resp, [Sent req], w')
  end.

Definition response_json (resp : response) : M api_result :=
  match resp with
  | Json r => ret r
  | _ => raise JSONDecodeError
  end.

Definition getitem (d : gmap string value) (key : string) : M value :=
  match d !! key with
  | Some v => ret v
  | None => raise (KeyError key)
  end.

Definition lift {A} (r : result A) : M A :=
  match r with Ok a => ret a | Raise e => raise e end.

Notation "x <- m ;; k" := (bind m (λ x, k))
  (at level 100, m at level 99, k at level 100).
Notation "m ;;; k" := (bind m (λ _, k))
  (at level 100, k at level 100).

Fixpoint for_each {A} (l : list A) (body : A → M unit) : M unit :=
  match l with
  | [] => ret tt
  | x :: rest => body x ;;; for_each rest body
  end.

Definition auth_payload : gmap string value :=
  <["apikey" := PStr (API_KEY cred)]> {["secretapikey" := PStr (SECRET_KEY cred)]}.

Definition get_existing_records (domain : string) (verbose : bool)
    : M (option (list (gmap string value))) :=
  resp <- http_post (Retrieve (root_domain domain)) auth_payload ;;
  (if verbose then response_json resp ;;; ret tt else ret tt) ;;;
  catch
    (result <- response_json resp ;;
     st <- lift (match status result with
                 | Some st => Ok st
                 | None => Raise (KeyError "status")
                 end) ;;
     if eqb st (PStr "SUCCESS") then ret (records result) else ret None)
    (λ e, match e with
          | JSONDecodeError | KeyError _ => ret None
          | _ => raise e
          end).

(** The payload of [create_record] and [update_record] before [prio]. *)
Definition base_payload (domain : string) (record : gmap string value)
    : M (gmap string value) :=
  type <- getitem record "type" ;;
  content <- getitem record "content" ;;
  ttl <- getitem record "ttl" ;;
  ret (<["name" := PStr (payload_name domain)]>
       (<["ttl" := ttl]>
        (<["content" := content]>
         (<["type" := type]> auth_payload)))).

Definition create_record (domain : string) (record : gmap string value) (verbose : bool)
    : M api_result :=
  payload <- base_payload domain record ;;
  type <- getitem record "type" ;;
  payload <- (if bool_decide (type ∈ PStr <$> ["MX"; "SRV"; "NAPTR"])
              then prio <- getitem record "prio" ;; ret (<["prio" := prio]> payload)
              else ret payload) ;;
  resp <- http_post (Create (root_domain domain)) payload ;;
  result <- response_json resp ;;
  st <- lift (match status result with
              | Some st => Ok st
              | None => Raise (KeyError "status")
              end) ;;
  (if eqb st (PStr "ERROR")
   then getitem record "name" ;;; getitem record "type" ;;; ret tt
   else ret tt) ;;;
  ret result.

Definition update_record (domain : string) (record_id : value)
    (record : gmap string value) (verbose : bool) : M api_result :=
  payload <- base_payload domain record ;;
  let payload := match record !! "prio" with
                 | Some prio => <["prio" := prio]> payload
                 | None => payload
                 end in
  resp <- http_post (Edit (root_domain domain) (str record_id)) payload ;;
  result <- response_json resp ;;
  ret result.

Definition get_existing_record (domain record_type name : string)
    (content prio : value) (verbose : bool) : M (option (gmap string value)) :=
  let subdomain := if negb (String.eqb name "@") then name else "" in
  resp <- http_post (RetrieveByNameType (root_domain domain) record_type subdomain)
            auth_payload ;;
  (if verbose then response_json resp ;;; ret tt else ret tt) ;;;
  catch
    (result <- response_json resp ;;
     lift (scan_result record_type content prio result))
    (λ e, match e with
          | JSONDecodeError | KeyError _ => ret None
          | _ => raise e
          end).

(** [if existing_record:] on the optional dict the lookup returned. *)
Definition found (existing_record : option (gmap string value)) : bool :=
  match existing_record with
  | Some record => negb (bool_decide (record = ∅))
  | None => false
  end.

Definition record_data_of (name record_type : string) (content ttl prio : value)
    : gmap string value :=
  let record_data : gmap string value :=
    <["ttl" := ttl]> (<["content" := content]>
      (<["type" := PStr record_type]> {["name" := PStr name]})) in
  if negb (is_none prio) then <["prio" := prio]> record_data else record_data.

Definition process_record (domain record_type name : string)
    (record : gmap string value) (force verbose : bool) : M unit :=
  catch
    (content <- getitem record "content" ;;
     ttl <- getitem record "ttl" ;;
     let prio := default PNone (record !! "prio") in
     if is_prio_type record_type && is_none prio then
       report name record_type MissingPrio
     else
       existing_record <- get_existing_record domain record_type name content prio verbose ;;
       let record_data := record_data_of name record_type content ttl prio in
       if found existing_record then
         if force then
           record_id <- getitem (default ∅ existing_record) "id" ;;
           result <- update_record domain record_id record_data verbose ;;
           st <- lift (match status result with
                       | Some st => Ok st
                       | None => Raise (KeyError "status")
                       end) ;;
           report name record_type (Updated st)
         else report name record_type Skipped
       else
         result <- create_record domain record_data verbose ;;
         st <- lift (match status result with
                     | Some st => Ok st
                     | None => Raise (KeyError "status")
                     end) ;;
         report name record_type (Created st))
    (λ e, match e with
          | KeyError key => report name record_type (MissingKey key)
          | _ => report name record_type (Unexpected e)
          end).

(** Lines 367-374: the record's name with a trailing dot; [AttributeError]
    when the name is not a string, [KeyError] from the verbose line that
    reads [record['content']]. *)
Definition effective_name (domain : string) (record : gmap string value)
    (verbose : bool) : M string :=
  match default (PStr domain) (record !! "name") with
  | PStr name =>
      let name := if negb (endswith "." name) then name +:+ "." else name in
      (if verbose then getitem record "content" ;;; ret tt else ret tt) ;;;
      ret name
  | _ => raise AttributeError
  end.

Definition import_records (domain record_type : string)
    (record_list : list (gmap string value)) (force verbose : bool) : M unit :=
  for_each record_list (λ record,
    name <- effective_name domain record verbose ;;
    process_record domain record_type name record force verbose).

Definition import_dns_records (new_records : document) (force verbose : bool) : M unit :=
  for_each new_records (λ domain_data,
    for_each domain_data (λ '(domain, records),
      for_each records (λ '(record_type, record_list),
        import_records domain record_type record_list force verbose))).

End Provider.

(** *** The vendor export path *)

(** [export_data]: type -> name -> one record or a list of records. The
    keys are the values the provider sent, compared with [==]. *)
Inductive export_entry : Type :=
| One (record_data : gmap string value)
| Many (record_datas : list (gmap string value)).

Abbreviation vdict V := (list (value * V)).

Fixpoint vdict_get {V} (k : value) (d : vdict V) : option V :=
  match d with
  | [] => None
  | (k', v) :: rest => if eqb k' k then Some v else vdict_get k rest
  end.

Fixpoint vdict_set {V} (k : value) (v : V) (d : vdict V) : vdict V :=
  match d with
  | [] => [(k, v)]
  | (k', v') :: rest =>
      if eqb k' k then (k', v) :: rest else (k', v') :: vdict_set k v rest
  end.

Definition item_of (record : gmap string value) (key : string) : result value :=
  match record !! key with
  | Some v => Ok v
  | None => Raise (KeyError key)
  end.

Definition rbind {A B} (r : result A) (k : A → result B) : result B :=
  match r with Ok a => k a | Raise e => Raise e end.

(** The [record_data] of one provider record: [content] and [ttl], an MX
    content prefixed with its [prio], null values left out. *)
Definition export_record_data (record : gmap string value) : result (gmap string value) :=
  rbind (item_of record "type") (λ record_type,
  rbind (item_of record "content") (λ content,
  rbind (item_of record "ttl") (λ ttl,
  rbind (if eqb record_type (PStr "MX")
         then rbind (item_of record "prio") (λ prio,
                Ok (PStr (str prio +:+ " " +:+ str content)))
         else Ok content) (λ content,
  let d : gmap string value := ∅ in
  let d := if negb (is_none content) then <["content" := content]> d else d in
  let d := if negb (is_none ttl) then <["ttl" := ttl]> d else d in
  Ok d)))).

(** One turn of the loop of [export_dns_records_json]. *)
Definition export_step (domain : string) (export_data : vdict (vdict export_entry))
    (record : gmap string value) : result (vdict (vdict export_entry)) :=
  rbind (item_of record "type") (λ record_type,
  let by_name := default [] (vdict_get record_type export_data) in
  rbind (item_of record "name") (λ rname,
  let name := if negb (eqb rname (PStr domain)) then rname else PStr "@" in
  rbind (export_record_data record) (λ record_data,
  let entry :=
    match vdict_get name by_name with
    | Some (Many l) => Many (l ++ [record_data])
    | Some (One first) => Many [first; record_data]
    | None => One record_data
    end in
  Ok (vdict_set record_type (vdict_set name entry by_name) export_data)))).

Fixpoint export_loop (domain : string) (records : list (gmap string value))
    (export_data : vdict (vdict export_entry)) : result (vdict (vdict export_entry)) :=
  match records with
  | [] => Ok export_data
  | record :: rest =>
      rbind (export_step domain export_data record) (export_loop domain rest)
  end.

(** *** The command line entry *)

(** What [read_input] finds: a missing file, text that is not JSON, or a
    parsed document. *)
Inductive input : Type :=
| NoSuchFile
| InvalidJson
| Parsed (data : document).

(** [schema.json] is not among the sources: the loaded schema is a
    parameter, [None] when the file is missing or cannot be decoded. *)
Definition validate_json_schema (schema : option (document → bool)) (data : document)
    : bool :=
  match schema with
  | Some conforms => conforms data
  | None => false
  end.

Definition read_input (schema : option (document → bool)) (i : input) : result document :=
  match i with
  | NoSuchFile => Raise FileNotFoundError
  | InvalidJson => Raise JSONDecodeError
  | Parsed data =>
      if negb (validate_json_schema schema data) then Raise ValueError else Ok data
  end.

Section Provider.

Context {W : Type}.
Variable post : W → request → response * W.
Variable cred : credentials.

Definition export_dns_records_json (domain : string) (verbose : bool)
    : M (option (list (string * vdict (vdict export_entry)))) :=
  bind (get_existing_records post cred domain verbose) (λ records,
    match records with
    | Some (r :: rs) =>
        bind (lift (export_loop domain (r :: rs) [])) (λ export_data,
          ret (Some [(domain, export_data)]))
    | Some [] | None => ret None
    end).

(** The script run for an import: the check of the credentials when the
    module is loaded, then the import branch of [__main__]. The exit
    status, the events and the provider's final state. *)
Definition main (env : environ) (schema : option (document → bool)) (i : input)
    (force verbose : bool) (w : W) : Z * list event * W :=
  match load_credentials env with
  | None => (1, [], w)
  | Some keys =>
      match read_input schema i with
      | Raise _ => (1, [], w)
      | Ok new_records =>
          match import_dns_records post keys new_records force verbose w with
          | (Ok _, t, w') => (0, t, w')
          | (Raise _, t, w') => (1, t, w')
          end
      end
  end.

End Provider.

(** *** Reading a run *)

Definition requests (t : list event) : list request :=
  omap (λ e, match e with Sent r => Some r | Reported _ _ _ => None end) t.

Definition outcomes (t : list event) : list outcome :=
  omap (λ e, match e with Reported _ _ o => Some o | Sent _ => None end) t.

Definition is_write (r : request) : bool :=
  match req_endpoint r with
  | Create _ | Edit _ _ => true
  | Retrieve _ | RetrieveByNameType _ _ _ => false
  end.

Definition is_create (r : request) : bool :=
  match req_endpoint r with Create _ => true | _ => false end.

Definition is_edit (r : request) : bool :=
  match req_endpoint r with Edit _ _ => true | _ => false end.

(** The write calls (create, edit) among the events of a run. *)
Definition writes (t : list event) : list request := filter is_write (requests t).

(** The root domain a request addresses. *)
Definition addressed_root (r : request) : string :=
  match req_endpoint r with
  | Retrieve d | RetrieveByNameType d _ _ | Create d | Edit d _ => d
  end.

End DnsImport.

(** ** An in-memory provider

    A stand-in for the vendor used to run the model on concrete inputs:
    it stores what [create] sends under a fresh id, answers a lookup with
    every stored record of the addressed root domain and type (whatever
    the subdomain asked for), and applies [edit] to the record with the
    given id. *)

Module Memory.
Import DnsImport.

Abbreviation store := (list (string * gmap string value)).

Definition stored (payload : gmap string value) (id : string) : gmap string value :=
  <["id" := PStr id]> (delete "apikey" (delete "secretapikey" payload)).

Definition success (rs : option (list (gmap string value))) : response :=
  Json {| status := Some (PStr "SUCCESS"); records := rs |}.

Definition has_id (id : string) (r : gmap string value) : bool :=
  bool_decide (r !! "id" = Some (PStr id)).

Definition post (s : store) (r : request) : response * store :=
  match req_endpoint r with
  | Retrieve d =>
      (success (Some (snd <$> filter (λ e, String.eqb (fst e) d) s)), s)
  | RetrieveByNameType d t _ =>
      (success (Some (snd <$> filter (λ e, String.eqb (fst e) d
                 && bool_decide (snd e !! "type" = Some (PStr t))) s)), s)
  | Create d =>
      (success None,
       (s ++ [(d, stored (req_json r) (str_int (Z.of_nat (length s))))])%list)
  | Edit d id =>
      (success None,
       (λ e, if String.eqb (fst e) d && has_id id (snd e)
             then (d, stored (req_json r) id) else e) <$> s)
  end.

Definition keys : credentials := {| API_KEY := "pk1_test"; SECRET_KEY := "sk1_test" |}.

(** An environment in which the two variables hold these keys. *)
Definition environment : environ :=
  {| PORKBUN_API_KEY := Some "pk1_test"; PORKBUN_SECRET_KEY := Some "sk1_test" |}.

(** The provider's state after a first import into an empty account. *)
Definition created_by (data : document) : store :=
  (import_dns_records post keys data false false []).2.

(** Sample records and documents. *)
Definition apex_a : gmap string value :=
  {[ "content" := PStr "192.0.2.1"; "ttl" := PStr "300" ]}.

Definition www_a : gmap string value :=
  {[ "name" := PStr "www"; "content" := PStr "192.0.2.7"; "ttl" := PStr "300" ]}.


Definition mail_mx (prio : value) : gmap string value :=
  {[ "content" := PStr "mail.example.com"; "ttl" := PStr "300"; "prio" := prio ]}.

Definition mx_without_prio : gmap string value :=
  {[ "content" := PStr "mail.example.com"; "ttl" := PStr "300" ]}.

Definition without_ttl : gmap string value :=
  {[ "content" := PStr "192.0.2.1" ]}.

(** An account with two MX records of the same content. *)
Definition two_mx : store :=
  [("example.com", <["type" := PStr "MX"]> (<["id" := PStr "0"]> (mail_mx (PStr "10"))));
   ("example.com", <["type" := PStr "MX"]> (<["id" := PStr "1"]> (mail_mx (PStr "20"))))].

Definition one_record (domain record_type : string) (record : gmap string value)
    : document :=
  [[(domain, [(record_type, [record])])]].

(** A resolver that knows www.example.com as an alias with an address. *)
Definition alias_resolver (domain record_type : string) : DnsExport.resolution :=
  if String.eqb domain "www.example.com" then
    if String.eqb record_type "CNAME" then
      DnsExport.Answers
        {| DnsExport.ans_rdatas :=
             [{| DnsExport.rd_text := "example.com."; DnsExport.rd_attrs := ∅ |}];
           DnsExport.ans_ttl := 300 |}
    else if String.eqb record_type "A" then
      DnsExport.Answers
        {| DnsExport.ans_rdatas :=
             [{| DnsExport.rd_text := "192.0.2.1"; DnsExport.rd_attrs := ∅ |}];
           DnsExport.ans_ttl := 300 |}
    else DnsExport.NoAnswer
  else DnsExport.NXDOMAIN.

End Memory.

(** ** The export command *)

Module ExportCommand.
Import DnsExport.

(** White space as [str.split()] without argument sees it: the code
    points U+0009..U+000D, U+001C..U+0020, U+0085, U+00A0, U+1680,
    U+2000..U+200A, U+2028, U+2029, U+202F, U+205F and U+3000. *)
Definition is_space (c : N) : bool :=
  ((9 <=? c) && (c <=? 13) || (28 <=? c) && (c <=? 32)
   || (c =? 133) || (c =? 160) || (c =? 5760)
   || (8192 <=? c) && (c <=? 8202)
   || (c =? 8232) || (c =? 8233) || (c =? 8239) || (c =? 8287) || (c =? 12288))%N.

Definition cons_word (w : list N) (ws : list (list N)) : list (list N) :=
  match w with
  | [] => ws
  | _ :: _ => w :: ws
  end.

(** The word that starts at the head of the text, and the words after it. *)
Fixpoint words_from (text : list N) : list N * list (list N) :=
  match text with
  | [] => ([], [])
  | c :: rest =>
      let '(w, ws) := words_from rest in
      if is_space c then ([], cons_word w ws) else (c :: w, ws)
  end.

(** [text.split()], each word as a string. *)
Definition split_whitespace (text : list N) : list string :=
  let '(w, ws) := words_from text in encode <$> cons_word w ws.

(** The parsed command line of [dns_export.py]; [nargs="+"] options are
    [None] when the flag is absent. *)
Record args : Type := {
  arg_help : bool;
  arg_domains : option (list string);
  arg_raw : bool;
  arg_all : bool;
  arg_exclude : option (list string);
  arg_keep_a_aaaa : bool
}.

(** Standard input: a terminal, or the code points of the text
    [sys.stdin.read()] returns. *)
Inductive stdin : Type :=
| Terminal
| Piped (text : list N).

Definition all_types : list string :=
  ["A"; "AAAA"; "AFSDB"; "APL"; "CAA"; "CDNSKEY"; "CDS"; "CERT"; "CNAME"; "DHCID";
   "DLV"; "DNAME"; "DNSKEY"; "DS"; "EUI48"; "EUI64"; "HINFO"; "HIP"; "IPSECKEY";
   "KEY"; "KX"; "LOC"; "MX"; "NAPTR"; "NS"; "NSEC"; "NSEC3"; "NSEC3PARAM"; "PTR";
   "RP"; "SIG"; "SMIMEA"; "SOA"; "SPF"; "SRV"; "SSHFP"; "SVCB"; "TLSA"; "TXT";
   "URI"; "ZONEMD"].

Definition common_types : list string := ["A"; "AAAA"; "CNAME"; "MX"; "TXT"; "SPF"].

(** [record_types] after [--all] and [--exclude]. *)
Definition selected_types (a : args) : list string :=
  let record_types := if arg_all a then all_types else common_types in
  match arg_exclude a with
  | Some (e :: es) =>
      filter (λ rt, negb (bool_decide (rt ∈ e :: es))) record_types
  | Some [] | None => record_types
  end.

(** One element of [all_records]. *)
Inductive exported : Type :=
| RawRecords (domain : string) (records : odict (list item))
| Formatted (domain : string) (by_type : odict (list (gmap string value))).

Inductive finished : Type :=
| Exit (code : Z)
| Dumped (all_records : list exported)
| Crashed.

Section Resolver.

Variable resolve : string → string → resolution.

(** The body of the loop over [domains]; [None] when [format_records]
    raises. *)
Definition export_domain (a : args) (record_types : list string) (domain : string)
    : option exported :=
  let records := get_records resolve domain record_types (arg_raw a) (arg_keep_a_aaaa a) in
  if arg_raw a then Some (RawRecords domain records)
  else '(d, by_type) ← format_records domain records; Some (Formatted d by_type).

Definition main (a : args) (input : stdin) : finished :=
  if arg_help a then Exit 0
  else
    let domains :=
      match arg_domains a with
      | Some (d :: ds) => Some (d :: ds)
      | Some [] | None =>
          match input with
          | Terminal => None
          | Piped text => Some (split_whitespace text)
          end
      end in
    match domains with
    | None | Some [] => Exit 1
    | Some (d :: ds) =>
        match mapM (export_domain a (selected_types a)) (d :: ds) with
        | Some all_records => Dumped all_records
        | None => Crashed
        end
    end.

End Resolver.

End ExportCommand.

(** ** Vocabulary of the statements *)

Module Vocabulary.
Import DnsExport.

(** The resolver answered the query for this type and every answer had
    the attributes the exporter reads. *)
Definition answered (resolve : string → string → resolution)
    (domain : string) (raw_output : bool) (record_type : string) : bool :=
  match resolve domain record_type with
  | Answers a =>
      bool_decide
        (is_Some (mapM (decode_rdata record_type raw_output (ans_ttl a)) (ans_rdatas a)))
  | NXDOMAIN | NoAnswer | ResolverFailure => false
  end.

(** The field set of an exported entry, per record type. *)
Definition template (record_type : string) : gset string :=
  if bool_decide (record_type = "MX" ∨ record_type = "SRV")
  then {["content"; "ttl"; "prio"]}
  else if bool_decide (record_type = "NAPTR")
  then {["content"; "ttl"; "order"; "preference"]}
  else {["content"; "ttl"]}.

(** An exported entry has exactly the fields of its type, none of them null. *)
Definition entry_ok (record_type : string) (e : gmap string value) : Prop :=
  dom e = template record_type ∧ ∀ k v, e !! k = Some v → is_none v = false.

(** A decoded record that [format_record] turns into a well-shaped entry. *)
Definition item_ok (record_type : string) (i : item) : Prop :=
  ∃ e, format_record record_type i = Some e ∧ entry_ok record_type e.

Definition table_ok {V} (P : string → V → Prop) (d : odict (list V)) : Prop :=
  Forall (λ kv, Forall (P (fst kv)) (snd kv)) d.

End Vocabulary.

Module ImportVocabulary.
Import DnsImport.

(** The request [get_existing_record] sends. *)
Definition lookup_request (cred : credentials) (domain record_type name : string) : request :=
  {| req_endpoint :=
       RetrieveByNameType (root_domain domain) record_type
         (if negb (String.eqb name "@") then name else "");
     req_json := auth_payload cred |}.

(** What the lookup makes of a response. *)
Definition lookup_value (record_type : string) (content prio : value) (verbose : bool)
    (resp : response) : result (option (gmap string value)) :=
  match resp with
  | ConnectionFailed => Raise RequestException
  | NotJson => if verbose then Raise JSONDecodeError else Ok None
  | Json r =>
      match scan_result record_type content prio r with
      | Ok found => Ok found
      | Raise _ => Ok None
      end
  end.

(** The payload of a write call: the fixed fields, then [prio] when sent. *)
Definition write_payload (cred : credentials) (domain record_type : string)
    (content ttl : value) (prio : option value) : gmap string value :=
  let payload : gmap string value :=
    <["name" := PStr (payload_name domain)]>
      (<["ttl" := ttl]>
        (<["content" := content]>
          (<["type" := PStr record_type]> (auth_payload cred)))) in
  match prio with
  | Some p => <["prio" := p]> payload
  | None => payload
  end.

Definition create_request (cred : credentials) (domain record_type : string)
    (content ttl prio : value) : request :=
  {| req_endpoint := Create (root_domain domain);
     req_json := write_payload cred domain record_type content ttl
                   (if is_prio_type record_type then Some prio else None) |}.

Definition edit_request (cred : credentials) (domain record_type : string)
    (record_id content ttl prio : value) : request :=
  {| req_endpoint := Edit (root_domain domain) (str record_id);
     req_json := write_payload cred domain record_type content ttl
                   (if is_none prio then None else Some prio) |}.

(** What a write call makes of a response; [create_record] also reads
    the status. *)
Definition write_result (resp : response) (check_status : bool) : result api_result :=
  match resp with
  | ConnectionFailed => Raise RequestException
  | NotJson => Raise JSONDecodeError
  | Json r =>
      if check_status then
        match status r with Some _ => Ok r | None => Raise (KeyError "status") end
      else Ok r
  end.

(** The report that follows a write call. *)
Definition write_outcome (mk : value → outcome) (r : result api_result) : outcome :=
  match r with
  | Ok res =>
      match status res with
      | Some st => mk st
      | None => MissingKey "status"
      end
  | Raise (KeyError key) => MissingKey key
  | Raise e => Unexpected e
  end.

(** [process_record] on a record whose required fields are present,
    spelled out call by call. *)
Definition reconcile {W} (post : W → request → response * W) (cred : credentials)
    (domain record_type name : string) (content ttl prio : value)
    (force verbose : bool) (w : W) : result unit * list event * W :=
  let lreq := lookup_request cred domain record_type name in
  let w1 := (post w lreq).2 in
  match lookup_value record_type content prio verbose (post w lreq).1 with
  | Raise e => (Ok tt, [Sent lreq; Reported name record_type (Unexpected e)], w1)
  | Ok (Some existing) =>
      if force then
        match existing !! "id" with
        | None => (Ok tt, [Sent lreq; Reported name record_type (MissingKey "id")], w1)
        | Some record_id =>
            let ereq := edit_request cred domain record_type record_id content ttl prio in
            (Ok tt,
             [Sent lreq; Sent ereq;
              Reported name record_type
                (write_outcome Updated (write_result (post w1 ereq).1 false))],
             (post w1 ereq).2)
        end
      else (Ok tt, [Sent lreq; Reported name record_type Skipped], w1)
  | Ok None =>
      let creq := create_request cred domain record_type content ttl prio in
      (Ok tt,
       [Sent lreq; Sent creq;
        Reported name record_type
          (write_outcome Created (write_result (post w1 creq).1 true))],
       (post w1 creq).2)
  end.

(** What [process_record] reports without calling the provider when a
    required field is missing. *)
Definition missing_field (record_type : string) (record : gmap string value)
    : option outcome :=
  match record !! "content", record !! "ttl" with
  | None, _ => Some (MissingKey "content")
  | Some _, None => Some (MissingKey "ttl")
  | Some _, Some _ =>
      if is_prio_type record_type && is_none (default PNone (record !! "prio"))
      then Some MissingPrio else None
  end.

(** The record's [name] is absent or a string. *)
Definition name_is_string (record : gmap string value) : bool :=
  match record !! "name" with
  | None | Some (PStr _) => true
  | Some _ => false
  end.

(** The name [import_dns_records] hands to [process_record]: the record's
    [name], or the domain, with a trailing dot. *)
Definition dotted_name (domain : string) (record : gmap string value) : string :=
  match default (PStr domain) (record !! "name") with
  | PStr name => if negb (endswith "." name) then name +:+ "." else name
  | _ => ""
  end.

(** A provider record carries the keys the lookup reads. *)
Definition candidate_ok (record_type : string) (candidate : gmap string value) : bool :=
  bool_decide (is_Some (candidate !! "content"))
  && (negb (is_prio_type record_type) || bool_decide (is_Some (candidate !! "prio"))).

(** The test the lookup applies to a candidate: the input content is
    truthy and equal to the candidate's, and, for a priority-bearing type
    with a truthy input prio, the two prios have the same text. *)
Definition matches (record_type : string) (content prio : value)
    (candidate : gmap string value) : bool :=
  truthy content
  && match candidate !! "content" with
     | Some c => eqb c content
     | None => false
     end
  && (if is_prio_type record_type && truthy prio
      then match candidate !! "prio" with
           | Some p => String.eqb (str p) (str prio)
           | None => false
           end
      else true).

(** The test as the specification words it: the contents are equal and,
    for a priority-bearing type, the prios have the same text; an empty
    or zero input content or prio satisfies neither. *)
Definition claimed_matches (record_type : string) (content prio : value)
    (candidate : gmap string value) : bool :=
  truthy content
  && match candidate !! "content" with
     | Some c => eqb c content
     | None => false
     end
  && (if is_prio_type record_type
      then truthy prio
           && match candidate !! "prio" with
              | Some p => String.eqb (str p) (str prio)
              | None => false
              end
      else true).

(** A label: a string without the character. *)
Fixpoint has_char (c : ascii) (s : string) : bool :=
  match s with
  | EmptyString => false
  | String a rest => Ascii.eqb a c || has_char c rest
  end.

Definition dot_free (label : string) : bool := negb (has_char "." label).

(** The request addresses the root of the domain. *)
Definition addresses (domain : string) (r : request) : Prop :=
  addressed_root r = root_domain domain.

(** ... and its payload names the record after the domain alone. *)
Definition names_from_domain (domain : string) (r : request) : Prop :=
  addresses domain r ∧ req_json r !! "name" = Some (PStr (payload_name domain)).


(** The records of a document in the order the import visits them, each
    with its domain and type. *)
Definition entries (data : document) : list (string * string * gmap string value) :=
  domain_data ← data;
  '(domain, records) ← domain_data;
  '(record_type, record_list) ← records;
  (λ record, (domain, record_type, record)) <$> record_list.

(** Modelled from the spec: [schema.json] is not among the sources. The
    document is a sequence of single-key mappings, one per domain, each
    value a mapping from record type to a sequence of record objects that
    contain at least [content] and [ttl]. *)
Definition conforms (data : document) : bool :=
  forallb (λ domain_data : odict (odict (list (gmap string value))),
    Nat.eqb (length domain_data) 1
    && forallb (λ by_type : string * odict (list (gmap string value)),
         forallb (λ record_list : string * list (gmap string value),
           forallb (λ record : gmap string value,
             bool_decide (is_Some (record !! "content"))
             && bool_decide (is_Some (record !! "ttl")))
             (snd record_list))
           (snd by_type))
         domain_data)
    data.

(** The name of a create payload as the specification words it: ["@"]
    when the record's effective name equals the domain, the subdomain
    label otherwise. *)
Definition claimed_create_name (domain : string) (record : gmap string value) : string :=
  let name := match record !! "name" with
              | Some (PStr name) => name
              | _ => domain
              end in
  if String.eqb name domain then "@" else first_label name.

(** The events of a run. *)
Definition events {A W} (run : result A * list event * W) : list event := run.1.2.

End ImportVocabulary.

Module ExportMoreVocabulary.
Import DnsExport ExportCommand Vocabulary.

(** [d.get(k)]. *)
Definition dict_get {V} (k : string) (d : odict V) : option V :=
  snd <$> List.find (λ kv, String.eqb (fst kv) k) d.

(** The items the comprehension of [get_records] builds for a type, when
    the query is answered and every answer decodes. *)
Definition decoded (resolve : string → string → resolution)
    (domain : string) (raw_output : bool) (record_type : string) : option (list item) :=
  match resolve domain record_type with
  | Answers a => mapM (decode_rdata record_type raw_output (ans_ttl a)) (ans_rdatas a)
  | NXDOMAIN | NoAnswer | ResolverFailure => None
  end.

(** The type is A or AAAA and the CNAME policy removes it. *)
Definition dropped_by_cname (resolve : string → string → resolution)
    (domain : string) (record_types : list string) (raw_output keep_a_aaaa : bool)
    (record_type : string) : bool :=
  (String.eqb record_type "A" || String.eqb record_type "AAAA")
  && negb keep_a_aaaa
  && bool_decide ("CNAME" ∈ record_types)
  && answered resolve domain raw_output "CNAME".

(** The type has an entry in what [get_records] returns. *)
Definition listed (resolve : string → string → resolution)
    (domain : string) (record_types : list string) (raw_output keep_a_aaaa : bool)
    (record_type : string) : bool :=
  answered resolve domain raw_output record_type
  && negb (dropped_by_cname resolve domain record_types raw_output keep_a_aaaa record_type).

(** The formatting of one table row. *)
Definition format_row (row : string * list item)
    : option (string * list (gmap string value)) :=
  entries ← mapM (format_record (fst row)) (snd row); Some (fst row, entries).

(** The domains the export command works on, [None] when it has none to
    read. *)
Definition resolved_domains (a : args) (input : stdin) : option (list string) :=
  match arg_domains a with
  | Some (d :: ds) => Some (d :: ds)
  | Some [] | None =>
      match input with
      | Terminal => None
      | Piped text => Some (split_whitespace text)
      end
  end.

Definition exported_domain (e : exported) : string :=
  match e with RawRecords d _ | Formatted d _ => d end.

Definition exported_types (e : exported) : list string :=
  match e with
  | RawRecords _ records => fst <$> records
  | Formatted _ by_type => fst <$> by_type
  end.

(** [n] copies of a character. *)
Fixpoint repeat_char (c : ascii) (n : nat) : string :=
  match n with
  | O => EmptyString
  | S n => String c (repeat_char c n)
  end.

Definition startswith (c : ascii) (s : string) : bool :=
  match s with
  | String a _ => Ascii.eqb a c
  | EmptyString => false
  end.

End ExportMoreVocabulary.

Module ImportMoreVocabulary.
Import DnsImport ImportVocabulary.

(** The body of the loops of [import_dns_records] for one record. *)
Definition import_entry {W} (post : W → request → response * W) (cred : credentials)
    (force verbose : bool) (entry : string * string * gmap string value)
    : M (W:=W) unit :=
  let '(domain, record_type, record) := entry in
  bind (effective_name domain record verbose) (λ name,
    process_record post cred domain record_type name record force verbose).

(** The record gets past the lines that compute its name: the name is
    absent or a string and, with verbose set, the content is present. *)
Definition well_named (verbose : bool) (record : gmap string value) : bool :=
  name_is_string record
  && (negb verbose || bool_decide (is_Some (record !! "content"))).

(** The name and type the import reports an entry under. *)
Definition reported_as (entry : string * string * gmap string value) : string * string :=
  let '(domain, record_type, record) := entry in (dotted_name domain record, record_type).

(** The name and type of each report among the events of a run. *)
Definition reported (t : list event) : list (string * string) :=
  omap (λ e, match e with
             | Reported name record_type _ => Some (name, record_type)
             | Sent _ => None
             end) t.

(** The subdomain a lookup request asks for. *)
Definition lookup_subdomain (r : request) : option string :=
  match req_endpoint r with
  | RetrieveByNameType _ _ subdomain => Some subdomain
  | Retrieve _ | Create _ | Edit _ _ => None
  end.

(** A request of the entry: it addresses the root of the entry's domain
    and, when it is a lookup, asks for the entry's dotted name. *)
Definition entry_request (entry : string * string * gmap string value)
    (r : request) : Prop :=
  let '(domain, _, record) := entry in
  addressed_root r = root_domain domain ∧
  ∀ s, lookup_subdomain r = Some s → s = dotted_name domain record.

(** The request [get_existing_records] sends. *)
Definition retrieve_request (cred : credentials) (domain : string) : request :=
  {| req_endpoint := Retrieve (root_domain domain); req_json := auth_payload cred |}.

(** A provider record carries the keys the vendor export reads. *)
Definition exportable (record : gmap string value) : bool :=
  bool_decide (is_Some (record !! "type"))
  && bool_decide (is_Some (record !! "name"))
  && bool_decide (is_Some (record !! "content"))
  && bool_decide (is_Some (record !! "ttl"))
  && (negb (eqb (default PNone (record !! "type")) (PStr "MX"))
      || bool_decide (is_Some (record !! "prio"))).

(** The name the vendor export files a record under. *)
Definition exported_name (domain : string) (record : gmap string value) : value :=
  let name := default PNone (record !! "name") in
  if negb (eqb name (PStr domain)) then name else PStr "@".

(** The [record_data] of the records of a type and name, in order. *)
Fixpoint selected (domain : string) (record_type name : value)
    (records : list (gmap string value)) : list (gmap string value) :=
  match records with
  | [] => []
  | record :: rest =>
      let others := selected domain record_type name rest in
      if eqb (default PNone (record !! "type")) record_type
         && eqb (exported_name domain record) name
      then match export_record_data record with
           | Ok record_data => record_data :: others
           | Raise _ => others
           end
      else others
  end.

(** One [record_data] is exported as itself, two or more as their list. *)
Definition entry_of (record_datas : list (gmap string value)) : option export_entry :=
  match record_datas with
  | [] => None
  | [record_data] => Some (One record_data)
  | _ => Some (Many record_datas)
  end.

(** [export_data[record_type][name]], when both keys are there. *)
Definition exported_entry (record_type name : value)
    (export_data : vdict (vdict export_entry)) : option export_entry :=
  by_name ← vdict_get record_type export_data; vdict_get name by_name.

(** An answer to a lookup that the script reads as no record: a body
    that is not JSON (read without verbose), or a JSON body whose status
    is missing or is not SUCCESS. *)
Definition unsuccessful (verbose : bool) (resp : response) : bool :=
  match resp with
  | ConnectionFailed => false
  | NotJson => negb verbose
  | Json r =>
      match status r with
      | Some st => negb (eqb st (PStr "SUCCESS"))
      | None => true
      end
  end.

(** A provider that gives the same answer to every request. *)
Definition answering (resp : response) (w : unit) (r : request) : response * unit :=
  (resp, w).

(** The fields of every write payload but [prio]. *)
Definition write_fields : gset string :=
  {["secretapikey"; "apikey"; "type"; "content"; "ttl"; "name"]}.

(** Sample data: a provider that refuses every request, and a record
    whose name is a number. *)
Definition refused : response :=
  Json {| status := Some (PStr "ERROR"); records := None |}.

Definition numbered_a : gmap string value :=
  {[ "name" := PInt 5; "content" := PStr "192.0.2.9"; "ttl" := PStr "300" ]}.

Definition two_records (domain record_type : string) (first second : gmap string value)
    : document :=
  [[(domain, [(record_type, [first; second])])]].





(** The [record_data] dicts of an exported entry. *)
Definition record_datas (entry : export_entry) : list (gmap string value) :=
  match entry with
  | One record_data => [record_data]
  | Many record_datas => record_datas
  end.

(** What the vendor export makes of a provider record: the record is
    filed under its type and its name as a [record_data] without prio,
    with the record's ttl and content when they are not null, the content
    of an MX record being its prio, a space and its content. *)
Definition filed (exported : string) (data : vdict (vdict export_entry))
    (vendor : gmap string value) : Prop :=
  ∃ ty content ttl entry record_data,
    vendor !! "type" = Some ty ∧
    vendor !! "content" = Some content ∧
    vendor !! "ttl" = Some ttl ∧
    exported_entry ty (exported_name exported vendor) data = Some entry ∧
    record_data ∈ record_datas entry ∧
    record_data !! "prio" = None ∧
    record_data !! "ttl" = (if is_none ttl then None else Some ttl) ∧
    record_data !! "content"
    = (if eqb ty (PStr "MX")
       then (λ prio, PStr (str prio +:+ " " +:+ str content)) <$> vendor !! "prio"
       else if is_none content then None else Some content).

(** An MX record without prio whose name is a number. *)
Definition numbered_mx : gmap string value :=
  {[ "name" := PInt 5; "content" := PStr "mail.example.com"; "ttl" := PStr "300" ]}.

End ImportMoreVocabulary.

(** ** The exporter *)

Section ExportFacts.
Import DnsExport Vocabulary.

Lemma dict_mem_set {V} (k k' : string) (v : V) (d : odict V) :
  dict_mem k (dict_set k' v d) = String.eqb k' k || dict_mem k d.
Proof.
  induction d as [|[k0 v0] d IH]; simpl.
  - by rewrite orb_false_r.
  - destruct (String.eqb_spec k0 k') as [->|Hne]; simpl.
    + by destruct (String.eqb k' k).
    + rewrite IH. destruct (String.eqb k0 k), (String.eqb k' k); done.
Qed.

Lemma dict_mem_pop {V} (k k' : string) (d : odict V) :
  dict_mem k (dict_pop k' d) = negb (String.eqb k' k) && dict_mem k d.
Proof.
  unfold dict_pop. induction d as [|[k0 v0] d IH].
  - simpl. by rewrite andb_false_r.
  - rewrite filter_cons. cbn [fst].
    destruct (String.eqb_spec k0 k') as [->|Hne]; simpl.
    + rewrite IH. rewrite String.eqb_sym. by destruct (String.eqb k k').
    + rewrite IH.
      destruct (String.eqb_spec k0 k) as [->|]; simpl; [|done].
      destruct (String.eqb_spec k' k) as [->|]; done.
Qed.

Lemma query_all_mem resolve domain record_types raw_output records t :
  dict_mem t (query_all resolve domain record_types raw_output records)
  = dict_mem t records
    || bool_decide (t ∈ record_types) && answered resolve domain raw_output t.
Proof.
  revert records.
  induction record_types as [|rt rest IH]; intros records; simpl.
  - by rewrite orb_false_r.
  - rewrite IH. clear IH.
    match goal with |- dict_mem t ?r || _ = _ =>
      assert (dict_mem t r = dict_mem t records
                || String.eqb rt t && answered resolve domain raw_output rt) as ->
    end.
    { unfold answered.
      destruct (resolve domain rt) as [a| | |]; simpl;
        rewrite ?andb_false_r, ?orb_false_r; try done.
      destruct (mapM _ _) as [items|] eqn:Hm.
      - rewrite dict_mem_set, bool_decide_eq_true_2 by eauto.
        rewrite andb_true_r. apply orb_comm.
      - rewrite bool_decide_eq_false_2 by (by intros [? ?]).
        by rewrite andb_false_r, orb_false_r. }
    destruct (String.eqb_spec rt t) as [->|Hne]; simpl.
    + rewrite (bool_decide_eq_true_2 (t ∈ t :: rest)) by left. simpl.
      destruct (dict_mem t records), (bool_decide (t ∈ rest)),
        (answered resolve domain raw_output t); done.
    + rewrite orb_false_r. do 2 f_equal. apply bool_decide_ext.
      rewrite elem_of_cons. naive_solver.
Qed.


Lemma is_prio_type_cases t :
  is_prio_type t = true → t = "MX" ∨ t = "SRV" ∨ t = "NAPTR".
Proof.
  unfold is_prio_type, prio_types. intros H%bool_decide_eq_true.
  set_solver.
Qed.

Lemma template_mx_srv t : t = "MX" ∨ t = "SRV" → template t = {["content"; "ttl"; "prio"]}.
Proof. intros H. unfold template. by rewrite bool_decide_eq_true_2. Qed.

Lemma template_naptr : template "NAPTR" = {["content"; "ttl"; "order"; "preference"]}.
Proof. reflexivity. Qed.

Lemma template_other t : is_prio_type t = false → template t = {["content"; "ttl"]}.
Proof.
  unfold is_prio_type, prio_types, template. intros H%bool_decide_eq_false.
  rewrite !bool_decide_eq_false_2; [done| |]; set_solver.
Qed.

Ltac entry_fields :=
  split;
  [ rewrite ?dom_insert_L, ?dom_singleton_L; set_solver
  | intros k v; rewrite ?lookup_insert, ?lookup_singleton;
    repeat case_decide; try done; intros [= <-]; done ].

Lemma decode_item_ok t ttl r i :
  decode_rdata t false ttl r = Some i → item_ok t i.
Proof.
  unfold decode_rdata, item_ok, format_record, entry_ok. simpl.
  destruct (is_prio_type t) eqn:Hp.
  - destruct (String.eqb_spec t "MX") as [->|Hmx].
    { intros H. simplify_option_eq. eexists; split; [done|].
      rewrite template_mx_srv by auto. entry_fields. }
    destruct (String.eqb_spec t "SRV") as [->|Hsrv].
    { intros H. simplify_option_eq. eexists; split; [done|].
      rewrite template_mx_srv by auto. entry_fields. }
    apply is_prio_type_cases in Hp as [H1|[H1|H1]]; [done..|subst t].
    intros H. simplify_option_eq. eexists; split; [done|].
    rewrite template_naptr. entry_fields.
  - intros [= <-]. rewrite (template_other t Hp).
    destruct (String.eqb t "TXT"); simpl; eexists; (split; [done|]); entry_fields.
Qed.

Lemma table_ok_set {V} (P : string → V → Prop) k v (d : odict (list V)) :
  Forall (P k) v → table_ok P d → table_ok P (dict_set k v d).
Proof.
  intros Hv. unfold table_ok.
  induction d as [|[k' v'] d IH]; simpl; intros Hd.
  - by repeat constructor.
  - inversion Hd as [|? ? Hhd Htl]; subst.
    destruct (String.eqb_spec k' k) as [->|]; constructor; auto.
Qed.

Lemma table_ok_pop {V} (P : string → V → Prop) k (d : odict (list V)) :
  table_ok P d → table_ok P (dict_pop k d).
Proof.
  unfold table_ok, dict_pop. rewrite !Forall_forall.
  intros Hd kv Hin%list_elem_of_In.
  apply list_elem_of_filter in Hin as [_ Hin]. by apply Hd, list_elem_of_In.
Qed.

Lemma decoded_items_ok t ttl rdatas items :
  mapM (decode_rdata t false ttl) rdatas = Some items → Forall (item_ok t) items.
Proof.
  intros Hm%mapM_Some_1.
  induction Hm; constructor; eauto using decode_item_ok.
Qed.

Lemma query_all_ok resolve domain record_types records :
  table_ok item_ok records →
  table_ok item_ok (query_all resolve domain record_types false records).
Proof.
  revert records.
  induction record_types as [|rt rest IH]; intros records Hok; simpl; [done|].
  apply IH. destruct (resolve domain rt) as [a| | |]; try done.
  destruct (mapM _ _) as [items|] eqn:Hm; [|done].
  apply table_ok_set; eauto using decoded_items_ok.
Qed.

Lemma get_records_ok resolve domain record_types keep_a_aaaa :
  table_ok item_ok (get_records resolve domain record_types false keep_a_aaaa).
Proof.
  unfold get_records.
  pose proof (query_all_ok resolve domain record_types [] (Forall_nil_2 _)) as Hq.
  destruct (_ && _); [|done]. by do 2 apply table_ok_pop.
Qed.

Lemma formatted_entries_ok t items :
  Forall (item_ok t) items →
  ∃ entries, mapM (format_record t) items = Some entries ∧ Forall (entry_ok t) entries.
Proof.
  induction 1 as [|i items (e & He & Hok) _ (entries & Hm & Hall)]; simpl.
  - by exists [].
  - exists (e :: entries). rewrite He. simpl. rewrite Hm. simpl. split; [done|by constructor].
Qed.

Lemma format_types_ok records formatted :
  table_ok item_ok records → table_ok entry_ok formatted →
  ∃ out, format_types records formatted = Some out ∧ table_ok entry_ok out.
Proof.
  revert formatted.
  induction records as [|[t items] rest IH]; intros formatted Hr Hf; simpl.
  - by exists formatted.
  - inversion Hr as [|? ? Hhd Htl]; subst. simpl in Hhd.
    destruct (formatted_entries_ok t items Hhd) as (entries & -> & Hall). simpl.
    apply IH; [done|]. by apply table_ok_set.
Qed.

End ExportFacts.

(** ** The importer *)

Section ImportFacts.
Import DnsImport ImportVocabulary.
Context {W : Type}.
Variable post : W → request → response * W.
Variable cred : credentials.

#[local] Arguments scan_result : simpl never.
#[local] Arguments root_domain : simpl never.
#[local] Arguments payload_name : simpl never.
#[local] Arguments auth_payload : simpl never.
#[local] Arguments is_prio_type : simpl never.

Lemma scan_result_raise t content prio r e :
  scan_result t content prio r = Raise e → ∃ k, e = KeyError k.
Proof.
  unfold scan_result. destruct (status r); [|naive_solver].
  destruct (eqb _ _); [|done]. destruct (records r) as [[|c cs]|]; try done.
  generalize (c :: cs). intros l. induction l as [|x l IH]; simpl; [done|].
  repeat case_match; naive_solver.
Qed.

Lemma get_existing_record_run domain t name content prio verbose w :
  get_existing_record post cred domain t name content prio verbose w
  = let req := lookup_request cred domain t name in
    (lookup_value t content prio verbose (post w req).1, [Sent req], (post w req).2).
Proof.
  unfold get_existing_record, lookup_request, bind, catch, http_post. simpl.
  destruct (post w _) as [[| |r] w']; simpl; [done| |].
  - by destruct verbose.
  - destruct (scan_result t content prio r) as [x|e] eqn:Hs.
    + by destruct verbose.
    + apply scan_result_raise in Hs as Hk. destruct Hk as [k ->].
      by destruct verbose.
Qed.

Lemma find_match_found t content prio candidates record :
  find_match t content prio candidates = Ok (Some record) →
  is_Some (record !! "content").
Proof.
  induction candidates as [|c cs IH]; simpl; [done|].
  destruct (truthy content); [|done].
  destruct (c !! "content") as [v|] eqn:Hc; [|done].
  destruct (eqb v content); [|done].
  destruct (_ && _).
  - destruct (c !! "prio"); [|done]. destruct (String.eqb _ _); [|done].
    intros [= <-]. eauto.
  - intros [= <-]. eauto.
Qed.

Lemma lookup_value_found t content prio verbose resp record :
  lookup_value t content prio verbose resp = Ok (Some record) →
  found (Some record) = true.
Proof.
  destruct resp as [| |r]; simpl; [done|by destruct verbose|].
  destruct (scan_result t content prio r) as [y|] eqn:Hs; [|done].
  intros [= ->]. unfold scan_result in Hs.
  destruct (status r); [|done]. destruct (eqb _ _); [|done].
  destruct (records r) as [[|c cs]|]; try done.
  apply find_match_found in Hs as [cv Hcv].
  rewrite bool_decide_eq_false_2; [done|].
  intros ->. by rewrite lookup_empty in Hcv.
Qed.


Lemma type_in_prio_types t :
  bool_decide (PStr t ∈ PStr <$> ["MX"; "SRV"; "NAPTR"]) = is_prio_type t.
Proof.
  unfold is_prio_type. apply bool_decide_ext.
  rewrite list_elem_of_fmap. split.
  - intros (s & [= ->] & Hs). done.
  - intros Hs. eauto.
Qed.

Lemma record_data_lookup name t content ttl prio :
  let d := record_data_of name t content ttl prio in
  d !! "type" = Some (PStr t) ∧ d !! "content" = Some content ∧
  d !! "ttl" = Some ttl ∧ d !! "name" = Some (PStr name) ∧
  d !! "prio" = if is_none prio then None else Some prio.
Proof.
  unfold record_data_of. destruct (is_none prio); simpl; done.
Qed.

Lemma create_record_run domain name t content ttl prio verbose w :
  (is_prio_type t = true → is_none prio = false) →
  create_record post cred domain (record_data_of name t content ttl prio) verbose w
  = let req := create_request cred domain t content ttl prio in
    (write_result (post w req).1 true, [Sent req], (post w req).2).
Proof.
  intros Hp.
  destruct (record_data_lookup name t content ttl prio) as (Ht & Hc & Hl & Hn & Hpr).
  unfold create_record, base_payload, getitem, create_request, write_payload.
  rewrite Ht, Hc, Hl, Hn. cbn -[record_data_of]. rewrite type_in_prio_types.
  destruct (is_prio_type t) eqn:Hpt.
  - rewrite Hpr, (Hp eq_refl). cbn -[record_data_of].
    unfold http_post, bind. destruct (post w _) as [[| |r] w']; [done|done|].
    cbn. destruct (status r) as [st|]; [|done]. cbn.
    by destruct (eqb st (PStr "ERROR")).
  - cbn. unfold http_post, bind. destruct (post w _) as [[| |r] w']; [done|done|].
    cbn. destruct (status r) as [st|]; [|done]. cbn.
    by destruct (eqb st (PStr "ERROR")).
Qed.

Lemma update_record_run domain name t record_id content ttl prio verbose w :
  update_record post cred domain record_id (record_data_of name t content ttl prio) verbose w
  = let req := edit_request cred domain t record_id content ttl prio in
    (write_result (post w req).1 false, [Sent req], (post w req).2).
Proof.
  destruct (record_data_lookup name t content ttl prio) as (Ht & Hc & Hl & _ & Hpr).
  unfold update_record, base_payload, getitem, edit_request, write_payload.
  rewrite Ht, Hc, Hl, Hpr. cbn -[record_data_of].
  destruct (is_none prio); cbn; unfold http_post, bind;
    destruct (post w _) as [[| |r] w']; done.
Qed.

Lemma lookup_value_raise t content prio verbose resp e :
  lookup_value t content prio verbose resp = Raise e →
  e = RequestException ∨ e = JSONDecodeError.
Proof.
  destruct resp as [| |r]; simpl; [naive_solver| |].
  - destruct verbose; naive_solver.
  - by destruct (scan_result _ _ _ _).
Qed.

Lemma process_record_run domain t name record force verbose w content ttl :
  record !! "content" = Some content →
  record !! "ttl" = Some ttl →
  is_prio_type t && is_none (default PNone (record !! "prio")) = false →
  process_record post cred domain t name record force verbose w
  = reconcile post cred domain t name content ttl (default PNone (record !! "prio"))
      force verbose w.
Proof.
  intros Hc Hl Hp. unfold process_record, reconcile, getitem.
  rewrite Hc, Hl. set (prio := default PNone (record !! "prio")) in *.
  unfold catch at 1. unfold bind at 1. cbn -[record_data_of]. 
  unfold bind at 1. cbn -[record_data_of]. rewrite Hp.
  unfold bind at 1. rewrite get_existing_record_run. cbn -[record_data_of].
  destruct (lookup_value t content prio verbose _) as [[existing|]|e] eqn:Hv.
  - rewrite (lookup_value_found _ _ _ _ _ _ Hv). destruct force.
    + unfold bind at 1. unfold getitem. cbn -[record_data_of].
      destruct (existing !! "id") as [record_id|]; [|done].
      cbn -[record_data_of]. unfold bind at 1. rewrite update_record_run.
      cbn -[record_data_of]. 
      destruct (post _ (edit_request _ _ _ _ _ _ _)) as [[| |r] w2]; cbn; try done.
      destruct r as [[st|] rs]; reflexivity.
    + done.
  - cbn -[record_data_of]. unfold bind at 1. rewrite create_record_run.
    2:{ intros Ht. rewrite Ht in Hp. done. }
    cbn -[record_data_of].
    destruct (post _ (create_request _ _ _ _ _ _)) as [[| |r] w2]; cbn; try done.
    destruct r as [[st|] rs]; reflexivity.
  - apply lookup_value_raise in Hv as [-> | ->]; done.
Qed.

Lemma process_record_missing domain t name record force verbose w o :
  missing_field t record = Some o →
  process_record post cred domain t name record force verbose w
  = (Ok tt, [Reported name t o], w).
Proof.
  unfold missing_field, process_record, getitem.
  destruct (record !! "content") as [content|]; [|by intros [= <-]].
  destruct (record !! "ttl") as [ttl|]; [|by intros [= <-]].
  destruct (_ && _) eqn:Hp; [|done]. intros [= <-].
  reflexivity.
Qed.

Lemma for_each_app {A} (l1 l2 : list A) (body : A → M (W:=W) unit) w :
  for_each (l1 ++ l2) body w
  = match for_each l1 body w with
    | (Ok _, t1, w1) =>
        let x := for_each l2 body w1 in (x.1.1, (t1 ++ x.1.2)%list, x.2)
    | (Raise e, t1, w1) => (Raise e, t1, w1)
    end.
Proof.
  revert w. induction l1 as [|a l1 IH]; intros w; simpl.
  - by destruct (for_each l2 body w) as [[? ?] ?].
  - unfold bind. destruct (body a w) as [[[[]|e] t0] w0]; [|done].
    rewrite IH. destruct (for_each l1 body w0) as [[[[]|e] t1] w1]; simpl; [|done].
    by rewrite app_assoc.
Qed.

Lemma for_each_cons_ok {A} (a : A) (l : list A) (body : A → M (W:=W) unit) w t0 w0 :
  body a w = (Ok tt, t0, w0) →
  for_each (a :: l) body w
  = let rest := for_each l body w0 in (rest.1.1, (t0 ++ rest.1.2)%list, rest.2).
Proof.
  intros Hb. simpl. unfold bind. rewrite Hb.
  by destruct (for_each l body w0) as [[? ?] ?].
Qed.

Lemma effective_name_run domain record verbose w :
  name_is_string record = true →
  (verbose = true → is_Some (record !! "content")) →
  effective_name (W:=W) domain record verbose w
  = (Ok (dotted_name domain record), [], w).
Proof.
  unfold name_is_string, effective_name, dotted_name. intros Hn Hv.
  destruct (record !! "name") as [[| | |s]|]; try done; simpl.
  all: destruct verbose; [destruct (Hv eq_refl) as [c Hc]|];
    unfold bind, getitem; rewrite ?Hc; simpl; eauto.
Qed.
Lemma write_payload_lookup domain t content ttl prio :
  let payload := write_payload cred domain t content ttl prio in
  payload !! "type" = Some (PStr t) ∧ payload !! "content" = Some content ∧
  payload !! "ttl" = Some ttl ∧ payload !! "name" = Some (PStr (payload_name domain)) ∧
  payload !! "prio" = prio.
Proof.
  unfold write_payload, auth_payload.
  destruct prio; simpl; repeat split; reflexivity.
Qed.

Lemma writes_reconcile domain t name content ttl prio force verbose w :
  writes (events (reconcile post cred domain t name content ttl prio force verbose w))
  = match lookup_value t content prio verbose
            (post w (lookup_request cred domain t name)).1 with
    | Ok (Some existing) =>
        if force then
          match existing !! "id" with
          | Some record_id => [edit_request cred domain t record_id content ttl prio]
          | None => []
          end
        else []
    | Ok None => [create_request cred domain t content ttl prio]
    | Raise _ => []
    end.
Proof.
  unfold reconcile.
  destruct (lookup_value _ _ _ _ _) as [[existing|]|e]; [|done..].
  destruct force; [|done]. by destruct (existing !! "id").
Qed.

(** C1. For a record whose required fields are present, [process_record]
    sends at most one write call. When the lookup found a record and
    force is unset, it sends none and reports the record as skipped; when
    the lookup found a record and force is set, it sends exactly one edit
    call, addressed to the id of the found record, whose payload carries
    the record's content, ttl and prio; when the lookup found nothing, it
    sends exactly one create call. *)
Theorem process_record_write_calls domain t name record force verbose w content ttl :
  record !! "content" = Some content →
  record !! "ttl" = Some ttl →
  is_prio_type t && is_none (default PNone (record !! "prio")) = false →
  let prio := default PNone (record !! "prio") in
  let run := process_record post cred domain t name record force verbose w in
  (length (writes (events run)) ≤ 1)%nat ∧
  match (get_existing_record post cred domain t name content prio verbose w).1.1 with
  | Ok (Some existing) =>
      if force then
        ∀ record_id, existing !! "id" = Some record_id →
          ∃ payload,
            writes (events run)
            = [{| req_endpoint := Edit (root_domain domain) (str record_id);
                  req_json := payload |}] ∧
            payload !! "content" = Some content ∧
            payload !! "ttl" = Some ttl ∧
            payload !! "prio" = (if is_none prio then None else Some prio)
      else writes (events run) = [] ∧ outcomes (events run) = [Skipped]
  | Ok None =>
      ∃ payload,
        writes (events run)
        = [{| req_endpoint := Create (root_domain domain); req_json := payload |}]
  | Raise _ => writes (events run) = []
  end.
Proof.
  intros Hc Hl Hp prio run. subst run.
  rewrite (process_record_run _ _ _ _ _ _ _ _ _ Hc Hl Hp).
  fold prio. rewrite writes_reconcile, get_existing_record_run. simpl.
  destruct (lookup_value _ _ _ _ _) as [[existing|]|e] eqn:Hv.
  - destruct force.
    + split; [destruct (existing !! "id"); simpl; lia|].
      intros record_id ->. eexists. split; [reflexivity|].
      destruct (write_payload_lookup domain t content ttl
                  (if is_none prio then None else Some prio)) as (_ & ? & ? & _ & ?).
      done.
    + split; [simpl; lia|]. split; [done|].
      unfold reconcile. by rewrite Hv.
  - split; [simpl; lia|]. by eexists.
  - split; [simpl; lia|done].
Qed.

(** C5 (amended). An MX, SRV or NAPTR record without a prio field whose
    name is absent or a string (and whose content is present, with
    verbose set) is reported by [process_record] without any request to
    the provider, whose state is left as it was, and the loop of
    [import_dns_records] goes on with the records that follow it from
    that same state. The conditions on the name and the content are
    those of the lines that compute the record's name before
    [process_record] is called: a record that fails them ends the
    import. *)
Theorem missing_prio_is_reported domain t record before after force verbose w :
  is_prio_type t = true →
  record !! "prio" = None →
  name_is_string record = true →
  (verbose = true → is_Some (record !! "content")) →
  let name := dotted_name domain record in
  ∃ o,
    missing_field t record = Some o ∧
    (∀ w0, process_record post cred domain t name record force verbose w0
           = (Ok tt, [Reported name t o], w0)) ∧
    ∀ t1 w1,
      import_records post cred domain t before force verbose w = (Ok tt, t1, w1) →
      import_records post cred domain t (before ++ record :: after) force verbose w
      = let rest := import_records post cred domain t after force verbose w1 in
        (rest.1.1, (t1 ++ Reported name t o :: rest.1.2)%list, rest.2).
Proof.
  intros Ht Hprio Hname Hverbose name.
  assert (∃ o, missing_field t record = Some o) as [o Ho].
  { unfold missing_field. rewrite Ht, Hprio. simpl. repeat case_match; eauto. }
  exists o. split; [done|]. split.
  - intros w0. by apply process_record_missing.
  - intros t1 w1 Hbefore. unfold import_records in *.
    rewrite for_each_app, Hbefore.
    rewrite (for_each_cons_ok _ _ _ w1 [Reported name t o] w1); [done|].
    unfold bind. rewrite (effective_name_run _ _ _ _ Hname Hverbose).
    fold name. by rewrite (process_record_missing _ _ _ _ _ _ _ _ Ho).
Qed.

Lemma find_match_first t content prio candidates :
  Forall (λ c, candidate_ok t c = true) candidates →
  find_match t content prio candidates
  = Ok (List.find (matches t content prio) candidates).
Proof.
  induction 1 as [|c cs Hc _ IH]; simpl; [done|].
  unfold matches at 1. unfold candidate_ok in Hc.
  apply andb_true_iff in Hc as [[v Hv]%bool_decide_eq_true Hprio].
  rewrite Hv. destruct (truthy content); simpl; [|done].
  destruct (eqb v content); simpl; [|done].
  destruct (is_prio_type t); simpl; [|done].
  apply bool_decide_eq_true in Hprio as [p Hp]. rewrite Hp.
  destruct (truthy prio); simpl; [|done].
  by destruct (String.eqb _ _).
Qed.

Lemma scan_result_success t content prio candidates :
  scan_result t content prio
    {| status := Some (PStr "SUCCESS"); records := Some candidates |}
  = find_match t content prio candidates.
Proof. by destruct candidates. Qed.

(** C4 (amended). When the provider answers the lookup with SUCCESS and a
    list of records that carry a content (and, for MX, SRV and NAPTR, a
    prio), [get_existing_record] sends that one request and returns the
    first record of the list, in the provider's order, whose content
    equals a truthy input content and, when the type is MX, SRV or NAPTR
    and the input prio is truthy, whose prio has the same text as the
    input prio; an input prio that is absent, empty or zero is not
    compared. It returns no record when none passes. *)
Theorem get_existing_record_first_match domain t name content prio verbose w candidates :
  (post w (lookup_request cred domain t name)).1
  = Json {| status := Some (PStr "SUCCESS"); records := Some candidates |} →
  Forall (λ c, candidate_ok t c = true) candidates →
  get_existing_record post cred domain t name content prio verbose w
  = (Ok (List.find (matches t content prio) candidates),
     [Sent (lookup_request cred domain t name)],
     (post w (lookup_request cred domain t name)).2).
Proof.
  intros Hresp Hok. rewrite get_existing_record_run. cbv zeta. rewrite Hresp.
  unfold lookup_value. rewrite scan_result_success.
  by rewrite (find_match_first _ _ _ _ Hok).
Qed.

Lemma split_label sep label :
  has_char sep label = false → split sep label = [label].
Proof.
  induction label as [|c rest IH]; simpl; [done|].
  destruct (Ascii.eqb c sep); simpl; [done|].
  intros Hr. by rewrite IH.
Qed.

Lemma split_label_app sep label rest :
  has_char sep label = false →
  split sep (label +:+ String sep rest) = label :: split sep rest.
Proof.
  induction label as [|c label IH]; simpl.
  - by rewrite Ascii.eqb_refl.
  - destruct (Ascii.eqb c sep); simpl; [done|].
    intros Hr. by rewrite IH.
Qed.

Lemma split_join sep label labels :
  Forall (λ l, has_char sep l = false) (label :: labels) →
  split sep (join (String sep "") (label :: labels)) = label :: labels.
Proof.
  revert label. induction labels as [|l labels IH]; intros label Hall.
  - simpl. apply split_label. by inversion Hall.
  - inversion Hall as [|? ? Hl Hrest]; subst.
    change (join (String sep "") (label :: l :: labels))
      with (label +:+ String sep (join (String sep "") (l :: labels))).
    rewrite split_label_app by done. by rewrite IH.
Qed.

Lemma root_domain_labels labels a b :
  Forall (λ l, dot_free l = true) (labels ++ [a; b]) →
  root_domain (join "." (labels ++ [a; b])) = a +:+ "." +:+ b.
Proof.
  intros Hall. unfold root_domain.
  assert (split "." (join "." (labels ++ [a; b])) = (labels ++ [a; b])%list) as ->.
  { destruct (labels ++ [a; b])%list as [|l ls] eqn:Hl; [by destruct labels|].
    apply split_join. eapply Forall_impl; [|exact Hall].
    unfold dot_free. intros x. by destruct (has_char "." x). }
  unfold last_n. rewrite length_app. simpl.
  replace (length labels + 2 - 2)%nat with (length labels) by lia.
  by rewrite drop_app_length.
Qed.

Lemma first_label_labels label labels :
  Forall (λ l, dot_free l = true) (label :: labels) →
  first_label (join "." (label :: labels)) = label.
Proof.
  intros Hall. unfold first_label. rewrite split_join; [done|].
  eapply Forall_impl; [|exact Hall].
  unfold dot_free. intros x. by destruct (has_char "." x).
Qed.

Lemma join_cons sep x y ys :
  join sep (x :: y :: ys) = x +:+ sep +:+ join sep (y :: ys).
Proof. reflexivity. Qed.

Lemma split_labels sep s :
  split sep s ≠ [] ∧ Forall (λ l, has_char sep l = false) (split sep s) ∧
  join (String sep "") (split sep s) = s.
Proof.
  induction s as [|c rest (Hne & Hfree & Hjoin)]; cbn [split].
  - by repeat constructor.
  - destruct (Ascii.eqb_spec c sep) as [->|Hc].
    + split; [done|]. split; [by constructor|].
      destruct (split sep rest) as [|l ls]; [done|].
      rewrite join_cons, Hjoin. reflexivity.
    + destruct (split sep rest) as [|l ls]; [done|].
      split; [done|]. apply list.Forall_cons in Hfree as [Hl Hls]. split.
      * constructor; [|done]. cbn [has_char]. rewrite Hl.
        by destruct (Ascii.eqb_spec c sep).
      * destruct ls as [|l' ls].
        -- change (String c l = String c rest). f_equal. exact Hjoin.
        -- rewrite join_cons. rewrite join_cons in Hjoin.
           change (String c (l +:+ String sep "" +:+ join (String sep "") (l' :: ls))
                   = String c rest).
           by rewrite Hjoin.
Qed.

Lemma last_n_short {A} (n : nat) (l : list A) :
  (length l ≤ n)%nat → last_n n l = l.
Proof.
  intros Hlen. unfold last_n. by replace (length l - n)%nat with 0%nat by lia.
Qed.

Lemma last_n_whole {A} (n : nat) (l : list A) :
  last_n n l = l → l ≠ [] → (length l ≤ n)%nat.
Proof.
  unfold last_n. intros Heq Hne.
  apply (f_equal length) in Heq. rewrite length_drop in Heq.
  destruct l; [done|]. simpl in *. lia.
Qed.

Lemma root_domain_split d : split "." (root_domain d) = last_n 2 (split "." d).
Proof.
  destruct (split_labels "." d) as (Hne & Hfree & _).
  unfold root_domain.
  assert (Forall (λ l, has_char "." l = false) (last_n 2 (split "." d))) as Hlast
    by by apply Forall_drop.
  destruct (last_n 2 (split "." d)) as [|x xs] eqn:Hl.
  - unfold last_n in Hl. apply (f_equal length) in Hl.
    rewrite length_drop in Hl. destruct (split "." d); [done|]. simpl in Hl. lia.
  - by apply split_join.
Qed.

Lemma create_record_requests domain record verbose w :
  Forall (names_from_domain domain)
    (requests (events (create_record post cred domain record verbose w))).
Proof.
  unfold create_record, base_payload, getitem, bind, http_post, events.
  destruct (record !! "type") as [ty|]; [|by constructor].
  destruct (record !! "content") as [content|]; [|by constructor].
  destruct (record !! "ttl") as [ttl|]; [|by constructor].
  cbn. destruct (bool_decide _); cbn.
  - destruct (record !! "prio") as [prio|]; [|by constructor].
    cbn. destruct (post w _) as [[| |[[st|] rs]] w']; cbn;
      try destruct (eqb st (PStr "ERROR")); cbn;
      try destruct (record !! "name"); cbn;
      (constructor; [by split|constructor]).
  - destruct (post w _) as [[| |[[st|] rs]] w']; cbn;
      try destruct (eqb st (PStr "ERROR")); cbn;
      try destruct (record !! "name"); cbn;
      (constructor; [by split|constructor]).
Qed.

Lemma update_record_requests domain record_id record verbose w :
  Forall (names_from_domain domain)
    (requests (events (update_record post cred domain record_id record verbose w))).
Proof.
  unfold update_record, base_payload, getitem, bind, http_post, events.
  destruct (record !! "type") as [ty|]; [|by constructor].
  destruct (record !! "content") as [content|]; [|by constructor].
  destruct (record !! "ttl") as [ttl|]; [|by constructor].
  cbn. destruct (record !! "prio") as [prio|]; cbn;
    destruct (post w _) as [[| |[[st|] rs]] w']; cbn;
      (constructor; [by split|constructor]).
Qed.

Lemma get_existing_records_requests domain verbose w :
  Forall (addresses domain)
    (requests (events (get_existing_records post cred domain verbose w))).
Proof.
  unfold get_existing_records, bind, catch, http_post, events.
  destruct (post w _) as [[| |[[st|] rs]] w']; cbn;
    destruct verbose; cbn; try (by repeat constructor).
  all: destruct (eqb st (PStr "SUCCESS")); cbn; by repeat constructor.
Qed.

Lemma create_record_sends domain record verbose w ty content ttl :
  record !! "type" = Some ty →
  record !! "content" = Some content →
  record !! "ttl" = Some ttl →
  (ty ∈ PStr <$> ["MX"; "SRV"; "NAPTR"] → is_Some (record !! "prio")) →
  length (requests (events (create_record post cred domain record verbose w))) = 1%nat.
Proof.
  intros Ht Hc Hl Hp.
  unfold create_record, base_payload, getitem, bind, http_post, events.
  rewrite Ht, Hc, Hl. cbn. case_bool_decide as Hin; cbn.
  - destruct (Hp Hin) as [prio ->]. cbn.
    destruct (post w _) as [[| |[[st|] rs]] w']; cbn;
      try destruct (eqb st (PStr "ERROR")); cbn;
      try destruct (record !! "name"); cbn; done.
  - destruct (post w _) as [[| |[[st|] rs]] w']; cbn;
      try destruct (eqb st (PStr "ERROR")); cbn;
      try destruct (record !! "name"); cbn; done.
Qed.

Lemma update_record_sends domain record_id record verbose w ty content ttl :
  record !! "type" = Some ty →
  record !! "content" = Some content →
  record !! "ttl" = Some ttl →
  length (requests (events (update_record post cred domain record_id record verbose w)))
  = 1%nat.
Proof.
  intros Ht Hc Hl.
  unfold update_record, base_payload, getitem, bind, http_post, events.
  rewrite Ht, Hc, Hl. cbn.
  destruct (record !! "prio") as [prio|]; cbn;
    by destruct (post w _) as [[| |[[st|] rs]] w'].
Qed.

Lemma create_record_name_unused domain record n verbose w :
  requests (events (create_record post cred domain (<["name" := n]> record) verbose w))
  = requests (events (create_record post cred domain record verbose w)).
Proof.
  unfold create_record, base_payload, getitem, bind, http_post, events.
  rewrite !lookup_insert_ne by done. rewrite lookup_insert_eq.
  destruct (record !! "type") as [ty|]; [|done].
  destruct (record !! "content") as [content|]; [|done].
  destruct (record !! "ttl") as [ttl|]; [|done].
  cbn. destruct (bool_decide _); cbn.
  - destruct (record !! "prio") as [prio|]; [|done].
    cbn. destruct (post w _) as [[| |[[st|] rs]] w']; cbn; try done.
    destruct (eqb st (PStr "ERROR")); cbn; [|done].
    by destruct (record !! "name").
  - destruct (post w _) as [[| |[[st|] rs]] w']; cbn; try done.
    destruct (eqb st (PStr "ERROR")); cbn; [|done].
    by destruct (record !! "name").
Qed.

(** C10. [get_existing_records] and [get_existing_record] send one
    request each, [create_record] and [update_record] send one request
    when the record has the fields they read, and every request of the
    four addresses ['.'.join(domain.split('.')[-2:])], whose labels are
    the last two labels of the domain. The [name] of every create and
    edit payload is ["@"] when the domain equals that root and the first
    label of the domain otherwise, and the record's own [name] has no
    effect on the requests the two functions send. *)
Theorem provider_calls_address_root domain :
  (∀ verbose w,
     ∃ r, requests (events (get_existing_records post cred domain verbose w)) = [r] ∧
          addresses domain r) ∧
  (∀ t name content prio verbose w,
     ∃ r, requests (events
            (get_existing_record post cred domain t name content prio verbose w)) = [r] ∧
          addresses domain r) ∧
  (∀ record verbose w,
     Forall (names_from_domain domain)
       (requests (events (create_record post cred domain record verbose w))) ∧
     (is_Some (record !! "type") → is_Some (record !! "content") →
      is_Some (record !! "ttl") →
      (default PNone (record !! "type") ∈ PStr <$> ["MX"; "SRV"; "NAPTR"] →
       is_Some (record !! "prio")) →
      length (requests (events (create_record post cred domain record verbose w)))
      = 1%nat)) ∧
  (∀ record_id record verbose w,
     Forall (names_from_domain domain)
       (requests (events (update_record post cred domain record_id record verbose w))) ∧
     (is_Some (record !! "type") → is_Some (record !! "content") →
      is_Some (record !! "ttl") →
      length (requests (events
        (update_record post cred domain record_id record verbose w))) = 1%nat)) ∧
  (∀ record n verbose w,
     requests (events (create_record post cred domain (<["name" := n]> record) verbose w))
     = requests (events (create_record post cred domain record verbose w))) ∧
  (∀ record_id record n verbose w,
     update_record post cred domain record_id (<["name" := n]> record) verbose w
     = update_record post cred domain record_id record verbose w) ∧
  split "." (root_domain domain) = last_n 2 (split "." domain) ∧
  payload_name domain
  = (if bool_decide (domain = root_domain domain) then "@" else first_label domain) ∧
  (∀ labels a b,
     Forall (λ l, dot_free l = true) (labels ++ [a; b]) →
     root_domain (join "." (labels ++ [a; b])) = a +:+ "." +:+ b) ∧
  (∀ label labels,
     Forall (λ l, dot_free l = true) (label :: labels) →
     first_label (join "." (label :: labels)) = label).
Proof.
  split; [|split; [|split; [|split; [|split; [|split; [|split; [|split; [|split]]]]]]]].
  - intros verbose w.
    pose proof (get_existing_records_requests domain verbose w) as Hall.
    assert (length (requests (events (get_existing_records post cred domain verbose w)))
            = 1%nat) as Hlen.
    { unfold get_existing_records, bind, catch, http_post, events.
      destruct (post w _) as [[| |[[st|] rs]] w']; cbn;
        destruct verbose; cbn; try done.
      all: by destruct (eqb st (PStr "SUCCESS")). }
    destruct (requests _) as [|r [|? ?]]; try done.
    exists r. split; [done|]. by inversion Hall.
  - intros. rewrite get_existing_record_run. eexists. split; [reflexivity|]. done.
  - intros record verbose w. split; [apply create_record_requests|].
    intros [ty Ht] [content Hc] [ttl Hl] Hp.
    apply (create_record_sends _ _ _ _ ty content ttl); try done.
    by rewrite Ht in Hp.
  - intros record_id record verbose w. split; [apply update_record_requests|].
    intros [ty Ht] [content Hc] [ttl Hl].
    by apply (update_record_sends _ _ _ _ _ ty content ttl).
  - intros. apply create_record_name_unused.
  - intros. unfold update_record, base_payload, getitem.
    by rewrite !lookup_insert_ne.
  - apply root_domain_split.
  - unfold payload_name. destruct (String.eqb_spec domain (root_domain domain)).
    + by rewrite bool_decide_eq_true_2.
    + by rewrite bool_decide_eq_false_2.
  - apply root_domain_labels.
  - apply first_label_labels.
Qed.

(** C6. A document that fails schema validation ends the import with exit
    status 1 before [import_dns_records] starts: no request is sent and
    the provider's state is left as it was. *)
Theorem invalid_document_sends_nothing env schema data force verbose w :
  validate_json_schema schema data = false →
  main post env schema (Parsed data) force verbose w = (1, [], w).
Proof.
  intros Hv. unfold main, read_input. rewrite Hv. by destruct (load_credentials env).
Qed.

Lemma missing_field_none t record :
  missing_field t record = None →
  ∃ content ttl,
    record !! "content" = Some content ∧ record !! "ttl" = Some ttl ∧
    is_prio_type t && is_none (default PNone (record !! "prio")) = false.
Proof.
  unfold missing_field.
  destruct (record !! "content") as [content|]; [|done].
  destruct (record !! "ttl") as [ttl|]; [|done].
  destruct (_ && _) eqn:Hp; [done|]. eauto.
Qed.

Lemma requests_reconcile domain t name content ttl prio force verbose w :
  requests (events (reconcile post cred domain t name content ttl prio force verbose w))
  = lookup_request cred domain t name
    :: writes (events (reconcile post cred domain t name content ttl prio force verbose w)).
Proof.
  unfold reconcile.
  destruct (lookup_value _ _ _ _ _) as [[existing|]|e]; [|done..].
  destruct force; [|done]. by destruct (existing !! "id").
Qed.

Lemma write_payload_dom domain t content ttl prio :
  dom (write_payload cred domain t content ttl prio)
  = {["secretapikey"; "apikey"; "type"; "content"; "ttl"; "name"]}
    ∪ (match prio with Some _ => {["prio"]} | None => ∅ end).
Proof.
  unfold write_payload, auth_payload.
  destruct prio; rewrite !dom_insert_L, dom_singleton_L; set_solver.
Qed.

(** The requests of [process_record] satisfy [P] when the lookup request
    and the write requests of [reconcile] do. *)
Lemma process_record_requests (P : request → Prop) domain t name record force verbose w :
  (∀ content ttl,
     record !! "content" = Some content → record !! "ttl" = Some ttl →
     is_prio_type t && is_none (default PNone (record !! "prio")) = false →
     P (lookup_request cred domain t name) ∧
     P (create_request cred domain t content ttl (default PNone (record !! "prio"))) ∧
     ∀ record_id,
       P (edit_request cred domain t record_id content ttl
            (default PNone (record !! "prio")))) →
  Forall P (requests (events
    (process_record post cred domain t name record force verbose w))).
Proof.
  intros HP. destruct (missing_field t record) as [o|] eqn:Hm.
  - rewrite (process_record_missing _ _ _ _ _ _ _ _ Hm). constructor.
  - destruct (missing_field_none _ _ Hm) as (content & ttl & Hc & Hl & Hp).
    rewrite (process_record_run _ _ _ _ _ _ _ _ _ Hc Hl Hp).
    destruct (HP _ _ Hc Hl Hp) as (Hlookup & Hcreate & Hedit).
    rewrite requests_reconcile, writes_reconcile.
    constructor; [done|].
    destruct (lookup_value _ _ _ _ _) as [[existing|]|e];
      [|by repeat constructor..].
    destruct force; [|constructor].
    destruct (existing !! "id"); by repeat constructor.
Qed.

(** C8 (amended). Every create request [process_record] sends goes to the
    create endpoint of the domain's root with a payload of exactly the
    fields secretapikey, apikey, type, content, ttl and name, plus prio
    for MX, SRV and NAPTR; type, content, ttl and prio are the record's,
    and name is ["@"] when the domain equals its two-label root and the
    first label of the domain otherwise. In particular the record
    content 192.0.2.1, ttl 300 of type A, name ["@"], domain example.com,
    against a provider holding no record, yields the lookup and exactly
    one create call, with those fields and name ["@"]. *)
Theorem create_payload_fields domain t name record force verbose w :
  Forall (λ r, is_create r = true →
      req_endpoint r = Create (root_domain domain) ∧
      dom (req_json r)
      = {["secretapikey"; "apikey"; "type"; "content"; "ttl"; "name"]}
        ∪ (if is_prio_type t then {["prio"]} else ∅) ∧
      req_json r !! "type" = Some (PStr t) ∧
      req_json r !! "content" = record !! "content" ∧
      req_json r !! "ttl" = record !! "ttl" ∧
      req_json r !! "name" = Some (PStr (payload_name domain)) ∧
      (is_prio_type t = true → req_json r !! "prio" = record !! "prio"))
    (requests (events (process_record post cred domain t name record force verbose w)))
  ∧ requests (events
      (process_record Memory.post Memory.keys "example.com" "A" "@"
         {[ "content" := PStr "192.0.2.1"; "ttl" := PStr "300" ]} false false []))
    = [ {| req_endpoint := RetrieveByNameType "example.com" "A" "";
           req_json := {[ "secretapikey" := PStr (SECRET_KEY Memory.keys);
                          "apikey" := PStr (API_KEY Memory.keys) ]} |};
        {| req_endpoint := Create "example.com";
           req_json := {[ "secretapikey" := PStr (SECRET_KEY Memory.keys);
                          "apikey" := PStr (API_KEY Memory.keys);
                          "type" := PStr "A";
                          "content" := PStr "192.0.2.1";
                          "ttl" := PStr "300";
                          "name" := PStr "@" ]} |} ].
Proof.
  split; [|by vm_compute].
  apply process_record_requests. intros content ttl Hc Hl Hp.
  split; [done|]. split; [|done].
  intros _. unfold create_request. simpl.
  destruct (write_payload_lookup domain t content ttl
              (if is_prio_type t then Some (default PNone (record !! "prio")) else None))
    as (Hty & Hco & Htt & Hna & Hpr).
  rewrite write_payload_dom, Hty, Hco, Htt, Hna, Hpr, Hc, Hl.
  repeat split; try done.
  - by destruct (is_prio_type t).
  - intros Ht. rewrite Ht in *. simpl in Hp.
    destruct (record !! "prio") as [[]|]; done.
Qed.

Lemma for_each_bind {A B} (l : list A) (f : A → list B) (body : B → M (W:=W) unit) w :
  for_each (l ≫= f) body w = for_each l (λ a, for_each (f a) body) w.
Proof.
  revert w. induction l as [|a l IH]; intros w; [done|].
  change ((a :: l) ≫= f) with (f a ++ (l ≫= f))%list.
  rewrite for_each_app. simpl. unfold bind.
  destruct (for_each (f a) body w) as [[[[]|e] t1] w1]; [|done].
  rewrite IH. by destruct (for_each l _ w1) as [[? ?] ?].
Qed.

Lemma for_each_ext {A} (l : list A) (body body' : A → M (W:=W) unit) w :
  (∀ a w, body a w = body' a w) → for_each l body w = for_each l body' w.
Proof.
  intros He. revert w. induction l as [|a l IH]; intros w; [done|].
  simpl. unfold bind. rewrite He.
  destruct (body' a w) as [[[[]|e] t1] w1]; [|done]. by rewrite IH.
Qed.

Lemma for_each_fmap {A B} (g : A → B) (l : list A) (body : B → M (W:=W) unit) w :
  for_each (g <$> l) body w = for_each l (λ a, body (g a)) w.
Proof.
  revert w. induction l as [|a l IH]; intros w; [done|].
  simpl. unfold bind.
  destruct (body (g a) w) as [[[[]|e] t1] w1]; [|done]. by rewrite IH.
Qed.

(** The import is one loop over the entries of the document. *)
Lemma import_dns_records_entries data force verbose w :
  import_dns_records post cred data force verbose w
  = for_each (entries data) (λ '(domain, t, record),
      bind (effective_name domain record verbose) (λ name,
        process_record post cred domain t name record force verbose)) w.
Proof.
  unfold import_dns_records, entries.
  rewrite for_each_bind. apply for_each_ext. intros domain_data w1.
  rewrite for_each_bind. apply for_each_ext. intros [domain records] w2.
  rewrite for_each_bind. apply for_each_ext. intros [t record_list] w3.
  unfold import_records. by rewrite for_each_fmap.
Qed.


Lemma format_record_importable t i e :
  DnsExport.format_record t i = Some e →
  missing_field t e = if String.eqb t "NAPTR" then Some MissingPrio else None.
Proof.
  unfold DnsExport.format_record, DnsExport.is_prio_type, DnsExport.prio_types.
  destruct (decide (t ∈ ["MX"; "SRV"; "NAPTR"])) as [Hin|Hnot].
  - rewrite (bool_decide_eq_true_2 _ Hin).
    destruct (String.eqb_spec t "MX") as [->|Hmx].
    { destruct (DnsExport.unpack 3 i) as [[|? [|? [|? [|]]]]|]; try done.
      by intros [= <-]. }
    destruct (String.eqb_spec t "SRV") as [->|Hsrv].
    { destruct (DnsExport.unpack 5 i) as [[|? [|? [|? [|? [|? [|]]]]]]|]; try done.
      by intros [= <-]. }
    assert (t = "NAPTR") as -> by set_solver.
    destruct (DnsExport.unpack 4 i) as [[|? [|? [|? [|? [|]]]]]|]; try done.
    by intros [= <-].
  - rewrite (bool_decide_eq_false_2 _ Hnot).
    assert (String.eqb t "NAPTR" = false) as Hn.
    { apply String.eqb_neq. set_solver. }
    assert (is_prio_type t = false) as Hp.
    { unfold is_prio_type. by rewrite bool_decide_eq_false_2. }
    rewrite Hn. unfold missing_field. rewrite Hp.
    destruct (String.eqb t "TXT").
    + destruct (DnsExport.unpack 2 i) as [[|[] [|? [|]]]|]; try done.
      by intros [= <-].
    + destruct (DnsExport.unpack 2 i) as [[|? [|? [|]]]|]; try done.
      by intros [= <-].
Qed.

(** A falsy content never matches, whatever the provider answers: the
    lookup returns no record. *)
Lemma falsy_content_finds_nothing t content prio candidates :
  truthy content = false → find_match t content prio candidates = Ok None.
Proof.
  intros Hc. induction candidates as [|c cs IH]; simpl; [done|]. by rewrite Hc.
Qed.

(** Whatever records the provider lists, a record whose content is falsy
    is not matched: without force it is created. *)
Lemma falsy_content_is_created domain t name record verbose w content ttl r :
  record !! "content" = Some content →
  record !! "ttl" = Some ttl →
  is_prio_type t && is_none (default PNone (record !! "prio")) = false →
  truthy content = false →
  (post w (lookup_request cred domain t name)).1 = Json r →
  writes (events (process_record post cred domain t name record false verbose w))
  = [create_request cred domain t content ttl (default PNone (record !! "prio"))].
Proof.
  intros Hc Hl Hp Hfalsy Hresp.
  rewrite (process_record_run _ _ _ _ _ _ _ _ _ Hc Hl Hp), writes_reconcile, Hresp.
  unfold lookup_value, scan_result.
  destruct (status r) as [st|]; [|done].
  destruct (eqb st (PStr "SUCCESS")); [|done].
  destruct (records r) as [[|c cs]|]; [done| |done].
  by rewrite falsy_content_finds_nothing.
Qed.

End ImportFacts.

(** ** Runs on the in-memory provider *)

Section Runs.
Import DnsImport ImportVocabulary Memory.


(** C1: with force, the record the account already holds is edited once. *)
Lemma process_record_write_calls_witness :
  let w := created_by (one_record "example.com" "A" apex_a) in
  let run := process_record post keys "example.com" "A" "example.com." apex_a
               true false w in
  apex_a !! "content" = Some (PStr "192.0.2.1") ∧
  apex_a !! "ttl" = Some (PStr "300") ∧
  is_prio_type "A" && is_none (default PNone (apex_a !! "prio")) = false ∧
  (length (writes (events run)) ≤ 1)%nat ∧
  is_edit <$> writes (events run) = [true].
Proof.
  split; [reflexivity|]. split; [reflexivity|]. split; [reflexivity|].
  split; [|vm_compute; reflexivity].
  exact (proj1 (process_record_write_calls post keys "example.com" "A" "example.com."
                  apex_a true false
                  (created_by (one_record "example.com" "A" apex_a))
                  (PStr "192.0.2.1") (PStr "300") eq_refl eq_refl eq_refl)).
Defined.

(** C5: an MX record without prio, with an MX record after it. *)
Lemma missing_prio_is_reported_witness :
  is_prio_type "MX" = true ∧
  mx_without_prio !! "prio" = None ∧
  name_is_string mx_without_prio = true ∧
  ∃ o,
    missing_field "MX" mx_without_prio = Some o ∧
    process_record post keys "example.com" "MX" "example.com." mx_without_prio
      false false []
    = (Ok tt, [Reported "example.com." "MX" o], []).
Proof.
  split; [reflexivity|]. split; [reflexivity|]. split; [reflexivity|].
  destruct (missing_prio_is_reported post keys "example.com" "MX" mx_without_prio
              [] [mail_mx (PStr "10")] false false []
              eq_refl eq_refl eq_refl (λ H, False_ind _ (Bool.diff_false_true H)))
    as (o & Ho & Hrun & _).
  exists o. split; [exact Ho|]. exact (Hrun []).
Defined.

(** C6: a record without ttl fails the schema, and nothing is sent. *)
Lemma invalid_document_sends_nothing_witness :
  let data := one_record "example.com" "A" without_ttl in
  validate_json_schema (Some conforms) data = false ∧
  main post environment (Some conforms) (Parsed data) false false [] = (1, [], []).
Proof.
  split; [reflexivity|].
  exact (invalid_document_sends_nothing post environment (Some conforms)
           (one_record "example.com" "A" without_ttl) false false [] eq_refl).
Defined.

(** C4: two MX records with the same content; the lookup with prio 20
    walks past the first. *)
Lemma get_existing_record_first_match_witness :
  let candidates := snd <$> two_mx in
  (post two_mx (lookup_request keys "example.com" "MX" "example.com.")).1
  = Json {| status := Some (PStr "SUCCESS"); records := Some candidates |} ∧
  Forall (λ c, candidate_ok "MX" c = true) candidates ∧
  (get_existing_record post keys "example.com" "MX" "example.com."
     (PStr "mail.example.com") (PStr "20") false two_mx).1.1
  = Ok (candidates !! 1%nat).
Proof.
  assert (Forall (λ c, candidate_ok "MX" c = true) (snd <$> two_mx)) as Hok
    by repeat constructor.
  split; [vm_compute; reflexivity|]. split; [exact Hok|].
  rewrite (get_existing_record_first_match post keys "example.com" "MX" "example.com."
             (PStr "mail.example.com") (PStr "20") false two_mx (snd <$> two_mx)
             eq_refl Hok).
  vm_compute. reflexivity.
Defined.

(** C4, counterexample to the original wording: an MX lookup whose input
    prio is the integer 0 returns the first record with the content, here
    one of prio 10, where the worded conditions leave no match. *)
Lemma zero_prio_matches_on_content_alone :
  let w := created_by (one_record "example.com" "MX" (mail_mx (PStr "10"))) in
  let candidates := snd <$> w in
  (get_existing_record post keys "example.com" "MX" "example.com."
     (PStr "mail.example.com") (PInt 0) false w).1.1
  = Ok (candidates !! 0%nat) ∧
  (λ c, c !! "prio") <$> candidates = [Some (PStr "10")] ∧
  List.find (claimed_matches "MX" (PStr "mail.example.com") (PInt 0)) candidates = None.
Proof. vm_compute. repeat split; reflexivity. Qed.

(** C8: the A record of example.com, sent with the name ["@"]. *)
Lemma create_payload_fields_witness :
  (λ r, (req_endpoint r, req_json r !! "name")) <$>
    filter is_create (requests (events
      (process_record post keys "example.com" "A" "@" apex_a false false [])))
  = [(Create "example.com", Some (PStr "@"))].
Proof.
  pose proof (proj2 (create_payload_fields post keys "example.com" "A" "@" apex_a
                       false false [])) as Hrun.
  unfold apex_a. rewrite Hrun. vm_compute. reflexivity.
Defined.

(** C8, counterexample to the original wording: a record named www in the
    document of example.com has an effective name other than the domain,
    and its create payload is still named ["@"], not www. *)
Lemma record_name_is_not_sent :
  let run := import_dns_records post keys (one_record "example.com" "A" www_a)
               false false [] in
  dotted_name "example.com" www_a = "www." ∧
  claimed_create_name "example.com" www_a = "www" ∧
  (λ r, (req_endpoint r, req_json r !! "name")) <$> writes (events run)
  = [(Create "example.com", Some (PStr "@"))].
Proof. vm_compute. repeat split; reflexivity. Qed.

(** C3, counterexample to the original wording: an MX record imported
    into an empty account and exported again comes back with its prio
    moved into the content and without a prio field. *)
Lemma mx_round_trip_changes_content :
  let record := mail_mx (PStr "10") in
  let w := created_by (one_record "example.com" "MX" record) in
  record !! "content" = Some (PStr "mail.example.com") ∧
  record !! "prio" = Some (PStr "10") ∧
  (export_dns_records_json post keys "example.com" false w).1.1
  = Ok (Some [("example.com",
               [(PStr "MX",
                 [(PStr "@",
                   One {[ "content" := PStr "10 mail.example.com";
                          "ttl" := PStr "300" ]})])])]).
Proof. vm_compute. repeat split; reflexivity. Qed.


End Runs.

(** ** More on the exporter *)

Section ExportMore.
Import DnsExport ExportCommand Vocabulary ExportMoreVocabulary.

Lemma dict_get_cons {V} (k k0 : string) (v0 : V) (d : odict V) :
  dict_get k ((k0, v0) :: d) = if String.eqb k0 k then Some v0 else dict_get k d.
Proof. unfold dict_get. simpl. by destruct (String.eqb k0 k). Qed.

Lemma dict_get_set {V} (k k' : string) (v : V) (d : odict V) :
  dict_get k (dict_set k' v d) = if String.eqb k' k then Some v else dict_get k d.
Proof.
  induction d as [|[k0 v0] d IH]; simpl.
  - rewrite dict_get_cons. by destruct (String.eqb k' k).
  - destruct (String.eqb_spec k0 k') as [->|Hne]; rewrite !dict_get_cons.
    + by destruct (String.eqb k' k).
    + rewrite IH. destruct (String.eqb_spec k0 k) as [->|]; [|done].
      destruct (String.eqb_spec k' k) as [->|]; done.
Qed.

Lemma dict_get_pop {V} (k k' : string) (d : odict V) :
  dict_get k (dict_pop k' d) = if String.eqb k' k then None else dict_get k d.
Proof.
  induction d as [|[k0 v0] d IH].
  - by destruct (String.eqb k' k).
  - unfold dict_pop in *. rewrite filter_cons. cbn [fst].
    destruct (String.eqb_spec k0 k') as [->|Hne]; simpl;
      rewrite !dict_get_cons, IH.
    + by destruct (String.eqb k' k).
    + destruct (String.eqb_spec k0 k) as [->|]; [|done].
      destruct (String.eqb_spec k' k) as [->|]; done.
Qed.

Lemma answered_decoded resolve domain raw_output t :
  answered resolve domain raw_output t = bool_decide (is_Some (decoded resolve domain raw_output t)).
Proof.
  unfold answered, decoded. destruct (resolve domain t); try done.
  all: rewrite bool_decide_eq_false_2; [done|by intros [? ?]].
Qed.

Lemma query_all_get resolve domain record_types raw_output records t :
  dict_get t (query_all resolve domain record_types raw_output records)
  = if bool_decide (t ∈ record_types) && answered resolve domain raw_output t
    then decoded resolve domain raw_output t
    else dict_get t records.
Proof.
  revert records.
  induction record_types as [|rt rest IH]; intros records; simpl; [done|].
  rewrite IH. clear IH.
  match goal with |- context [dict_get t ?r] =>
    assert (dict_get t r
            = if String.eqb rt t && answered resolve domain raw_output rt
              then decoded resolve domain raw_output rt
              else dict_get t records) as ->
  end.
  { unfold answered, decoded.
    destruct (resolve domain rt) as [a| | |]; simpl; rewrite ?andb_false_r; try done.
    destruct (mapM _ _) as [items|] eqn:Hm.
    - rewrite dict_get_set, bool_decide_eq_true_2 by eauto. by rewrite andb_true_r.
    - rewrite bool_decide_eq_false_2 by (by intros [? ?]). by rewrite andb_false_r. }
  destruct (String.eqb_spec rt t) as [->|Hne]; simpl.
  - rewrite (bool_decide_eq_true_2 (t ∈ t :: rest)) by left. simpl.
    destruct (bool_decide (t ∈ rest)), (answered resolve domain raw_output t); done.
  - assert (bool_decide (t ∈ rt :: rest) = bool_decide (t ∈ rest)) as ->; [|done].
    apply bool_decide_ext. rewrite elem_of_cons. naive_solver.
Qed.

Lemma mapM_total {A B} (f : A → option B) (g : A → B) (l : list A) :
  (∀ x, f x = Some (g x)) → mapM f l = Some (g <$> l).
Proof.
  intros Hf. induction l as [|x l IH]; [done|].
  simpl. rewrite Hf. simpl. rewrite IH. done.
Qed.

(** X1. What [get_records] holds for a type: nothing when the CNAME policy
    drops the type, when the type was not asked for, or when its query
    failed or an answer lacked an attribute; otherwise the decoded
    answers of the type, one item per answer in the resolver's order: in
    raw mode the text of each answer, and for a type other than MX, SRV
    and NAPTR in typed mode the pair of that text and the ttl. *)
Theorem get_records_entry resolve domain record_types raw_output keep_a_aaaa t :
  dict_get t (get_records resolve domain record_types raw_output keep_a_aaaa)
  = (if dropped_by_cname resolve domain record_types raw_output keep_a_aaaa t
     then None
     else if bool_decide (t ∈ record_types)
     then decoded resolve domain raw_output t
     else None)
  ∧ decoded resolve domain true t
    = match resolve domain t with
      | Answers a => Some ((λ r, IStr (rd_text r)) <$> ans_rdatas a)
      | _ => None
      end
  ∧ (if is_prio_type t then True
     else decoded resolve domain false t
          = match resolve domain t with
            | Answers a =>
                Some ((λ r, ITuple [PStr (rd_text r); PInt (ans_ttl a)]) <$> ans_rdatas a)
            | _ => None
            end).
Proof.
  split; [|split].
  - unfold get_records, dropped_by_cname.
    rewrite query_all_mem. simpl.
    assert (dict_get t (query_all resolve domain record_types raw_output [])
            = if bool_decide (t ∈ record_types)
              then decoded resolve domain raw_output t else None) as Hq.
    { rewrite query_all_get, answered_decoded.
      destruct (bool_decide (t ∈ record_types)); simpl; [|done].
      destruct (decoded resolve domain raw_output t) eqn:Hd; [done|].
      by rewrite bool_decide_eq_false_2 by (by intros [? ?]). }
    destruct (bool_decide ("CNAME" ∈ record_types) && answered _ _ _ "CNAME") eqn:Hc;
      destruct keep_a_aaaa; simpl.
    + apply andb_true_iff in Hc as [-> ->]. by rewrite !andb_false_r.
    + apply andb_true_iff in Hc as [-> ->]. rewrite !andb_true_r.
      rewrite !dict_get_pop, Hq.
      rewrite (String.eqb_sym t "A"), (String.eqb_sym t "AAAA").
      destruct (String.eqb "AAAA" t), (String.eqb "A" t); done.
    + rewrite Hq. rewrite !andb_false_r. done.
    + rewrite Hq.
      destruct (bool_decide ("CNAME" ∈ record_types)); simpl in Hc;
        rewrite ?Hc, ?andb_false_r; done.
  - unfold decoded. destruct (resolve domain t) as [a| | |]; try done.
    by apply mapM_total.
  - destruct (is_prio_type t) eqn:Hp; [done|].
    unfold decoded. destruct (resolve domain t) as [a| | |]; try done.
    apply mapM_total. intros r. unfold decode_rdata. by rewrite Hp.
Qed.

Lemma filter_filter_bool {A} (p q : A → bool) (l : list A) :
  filter (λ x, p x) (filter (λ x, q x) l) = filter (λ x, q x && p x) l.
Proof.
  induction l as [|x l IH]; [done|].
  rewrite !filter_cons. destruct (q x) eqn:Hq; simpl.
  - rewrite filter_cons. destruct (p x); simpl; by rewrite IH.
  - done.
Qed.

Lemma filter_ext_bool {A} (p q : A → bool) (l : list A) :
  (∀ x, x ∈ l → p x = q x) → filter (λ x, p x) l = filter (λ x, q x) l.
Proof.
  induction l as [|x l IH]; intros He; [done|].
  rewrite !filter_cons, (He x) by left.
  rewrite IH; [done|]. intros y Hy. apply He. by right.
Qed.

Lemma dict_set_fresh {V} (k : string) (v : V) (d : odict V) :
  k ∉ fst <$> d → dict_set k v d = (d ++ [(k, v)])%list.
Proof.
  induction d as [|[k0 v0] d IH]; simpl; [done|].
  intros Hk. apply not_elem_of_cons in Hk as [Hne Hk].
  destruct (String.eqb_spec k0 k) as [->|_]; [done|]. by rewrite IH.
Qed.

Lemma dict_set_keys {V} (k : string) (v : V) (d : odict V) :
  fst <$> dict_set k v d
  = if bool_decide (k ∈ fst <$> d) then fst <$> d else ((fst <$> d) ++ [k])%list.
Proof.
  induction d as [|[k0 v0] d IH]; [done|].
  cbn [dict_set]. destruct (String.eqb_spec k0 k) as [->|Hne]; rewrite !fmap_cons; cbn [fst].
  - by rewrite bool_decide_eq_true_2 by left.
  - rewrite IH. destruct (decide (k ∈ fst <$> d)) as [Hin|Hnot].
    + rewrite !bool_decide_eq_true_2; [done|by right|done].
    + rewrite !bool_decide_eq_false_2; [done| |done].
      intros [?|?]%elem_of_cons; congruence.
Qed.

Lemma dict_set_nodup {V} (k : string) (v : V) (d : odict V) :
  NoDup (fst <$> d) → NoDup (fst <$> dict_set k v d).
Proof.
  intros Hd. rewrite dict_set_keys. case_bool_decide as Hk; [done|].
  apply list.NoDup_app. split; [done|]. split; [|apply NoDup_singleton].
  intros x Hx ->%list_elem_of_singleton. done.
Qed.

Lemma dict_pop_keys {V} (k : string) (d : odict V) :
  fst <$> dict_pop k d = filter (λ x, negb (String.eqb x k)) (fst <$> d).
Proof.
  unfold dict_pop. induction d as [|[k0 v0] d IH]; [done|].
  rewrite fmap_cons. cbn [fst]. destruct (String.eqb k0 k) eqn:Hk.
  - rewrite !filter_cons_False by (cbn [fst]; rewrite Hk; intros []). done.
  - rewrite !filter_cons_True by (cbn [fst]; by rewrite Hk).
    by rewrite fmap_cons, IH.
Qed.

Lemma query_all_nodup resolve domain record_types raw_output records :
  NoDup (fst <$> records) →
  NoDup (fst <$> query_all resolve domain record_types raw_output records).
Proof.
  revert records. induction record_types as [|rt rest IH]; intros records Hd; [done|].
  simpl. apply IH. destruct (resolve domain rt); try done.
  destruct (mapM _ _); [|done]. by apply dict_set_nodup.
Qed.

Lemma get_records_nodup resolve domain record_types raw_output keep_a_aaaa :
  NoDup (fst <$> get_records resolve domain record_types raw_output keep_a_aaaa).
Proof.
  unfold get_records.
  pose proof (query_all_nodup resolve domain record_types raw_output [] (NoDup_nil_2))
    as Hq.
  destruct (_ && _); [|done].
  rewrite !dict_pop_keys. by do 2 apply list.NoDup_filter.
Qed.

Lemma query_all_cons resolve domain rt rest raw_output records :
  query_all resolve domain (rt :: rest) raw_output records
  = query_all resolve domain rest raw_output
      match decoded resolve domain raw_output rt with
      | Some items => dict_set rt items records
      | None => records
      end.
Proof. simpl. unfold decoded. by destruct (resolve domain rt). Qed.

Lemma query_all_keys resolve domain record_types raw_output records :
  NoDup record_types →
  (∀ t, t ∈ record_types → t ∉ fst <$> records) →
  fst <$> query_all resolve domain record_types raw_output records
  = ((fst <$> records)
     ++ filter (λ t, answered resolve domain raw_output t) record_types)%list.
Proof.
  revert records. induction record_types as [|rt rest IH]; intros records Hnd Hfresh.
  - simpl. by rewrite app_nil_r.
  - apply list.NoDup_cons in Hnd as [Hrt Hnd]. rewrite query_all_cons.
    pose proof (answered_decoded resolve domain raw_output rt) as Ha.
    destruct (decoded resolve domain raw_output rt) as [items|] eqn:Hd.
    + rewrite bool_decide_eq_true_2 in Ha by eauto.
      rewrite filter_cons_True by (by rewrite Ha).
      rewrite dict_set_fresh by (apply Hfresh; left).
      rewrite IH; [|done|].
      * rewrite fmap_app. simpl. by rewrite <- app_assoc.
      * intros t Ht. rewrite fmap_app. simpl.
        intros [Hin|Hin%list_elem_of_singleton]%elem_of_app.
        -- revert Hin. apply Hfresh. by right.
        -- congruence.
    + rewrite bool_decide_eq_false_2 in Ha by (by intros [? ?]).
      rewrite filter_cons_False by (rewrite Ha; intros []).
      apply IH; [done|]. intros t Ht. apply Hfresh. by right.
Qed.

(** X2. When no type is asked for twice, the table [get_records] returns
    lists exactly the types whose query was answered and that the CNAME
    policy does not drop, in the order they were asked for. *)
Theorem get_records_types resolve domain record_types raw_output keep_a_aaaa :
  NoDup record_types →
  fst <$> get_records resolve domain record_types raw_output keep_a_aaaa
  = filter (λ t, listed resolve domain record_types raw_output keep_a_aaaa t)
      record_types.
Proof.
  intros Hnd. unfold get_records. rewrite query_all_mem. simpl.
  pose proof (query_all_keys resolve domain record_types raw_output [] Hnd
                (λ t _, not_elem_of_nil t)) as Hk. simpl in Hk.
  destruct (bool_decide ("CNAME" ∈ record_types) && answered _ _ _ "CNAME") eqn:Hc;
    destruct keep_a_aaaa; simpl.
  - rewrite Hk. apply filter_ext_bool. intros t _.
    unfold listed, dropped_by_cname. simpl. by rewrite !andb_false_r, andb_true_r.
  - rewrite !dict_pop_keys, Hk, !filter_filter_bool.
    apply filter_ext_bool. intros t _.
    unfold listed, dropped_by_cname.
    apply andb_true_iff in Hc as [-> ->]. simpl. rewrite !andb_true_r.
    destruct (String.eqb t "A"), (String.eqb t "AAAA"); simpl;
      by rewrite ?andb_false_r, ?andb_true_r.
  - rewrite Hk. apply filter_ext_bool. intros t _.
    unfold listed, dropped_by_cname. simpl. by rewrite !andb_false_r, andb_true_r.
  - rewrite Hk. apply filter_ext_bool. intros t _.
    unfold listed, dropped_by_cname.
    rewrite <- !andb_assoc, Hc. by rewrite !andb_false_r, andb_true_r.
Qed.

Lemma format_types_rows records formatted :
  NoDup (fst <$> records) →
  (∀ t, t ∈ fst <$> records → t ∉ fst <$> formatted) →
  format_types records formatted
  = (λ rows, (formatted ++ rows)%list) <$> mapM format_row records.
Proof.
  revert formatted.
  induction records as [|[t items] rest IH]; intros formatted Hnd Hfresh.
  - simpl. by rewrite app_nil_r.
  - rewrite fmap_cons in Hnd. apply list.NoDup_cons in Hnd as [Ht Hnd].
    cbn [format_types].
    assert (format_row (t, items)
            = (λ entries, (t, entries)) <$> mapM (format_record t) items) as Hrow.
    { unfold format_row. simpl. by destruct (mapM _ _). }
    change (mapM format_row ((t, items) :: rest))
      with (y ← format_row (t, items); k ← mapM format_row rest; mret (y :: k)).
    rewrite Hrow.
    destruct (mapM (format_record t) items) as [entries|]; [|done].
    cbn -[format_types mapM dict_set].
    rewrite dict_set_fresh by (apply Hfresh; left).
    rewrite IH; [|done|].
    + destruct (mapM format_row rest) as [rows|]; [|done].
      simpl. by rewrite <- app_assoc.
    + intros k Hk. rewrite fmap_app. simpl.
      intros [Hin|Hin%list_elem_of_singleton]%elem_of_app.
      * revert Hin. apply Hfresh. by right.
      * subst. done.
Qed.

(** X3. [format_records] keeps every row of the table [get_records]
    returns in typed mode: the formatted document lists the same types in
    the same order and, under each type, one entry per record, each the
    formatting of the record at the same position. *)
Theorem format_records_keeps_rows resolve domain record_types keep_a_aaaa :
  ∃ by_type,
    format_records domain (get_records resolve domain record_types false keep_a_aaaa)
    = Some (domain, by_type) ∧
    Forall2 (λ row formatted,
               fst formatted = fst row ∧
               Forall2 (λ record entry, format_record (fst row) record = Some entry)
                 (snd row) (snd formatted))
      (get_records resolve domain record_types false keep_a_aaaa) by_type.
Proof.
  set (records := get_records resolve domain record_types false keep_a_aaaa).
  destruct (format_types_ok records [] (get_records_ok _ _ _ _) (Forall_nil_2 _))
    as (out & Hout & _).
  exists out. unfold format_records. rewrite Hout. split; [done|].
  rewrite format_types_rows in Hout;
    [|apply get_records_nodup|intros t _; apply not_elem_of_nil].
  destruct (mapM format_row records) as [rows|] eqn:Hrows; [|done].
  simpl in Hout. injection Hout as <-.
  apply mapM_Some_1 in Hrows.
  eapply Forall2_impl; [|exact Hrows].
  intros [t items] [t' entries]. unfold format_row. simpl.
  destruct (mapM (format_record t) items) as [es|] eqn:Hes; [|done].
  simpl. intros [= <- <-]. split; [done|]. by apply mapM_Some_1.
Qed.

Lemma Forall2_with_l {A B} (P : A → B → Prop) (Q : A → Prop) l k :
  Forall2 P l k → Forall Q l → Forall2 (λ x y, P x y ∧ Q x) l k.
Proof.
  induction 1 as [|x y l k Hxy _ IH]; [constructor|].
  intros [Hx Hl]%list.Forall_cons. constructor; auto.
Qed.

(** C9. Every record [get_records] decodes gets an entry, and that entry
    has exactly the field set of its type: content, ttl and prio for MX
    and SRV; content, ttl, order and preference for NAPTR; content and
    ttl for any other type; and no field holds a null. [format_records]
    does not fail on the table [get_records] returns in typed mode, and
    the document it returns lists the same types in the same order and,
    under each type, one such entry per decoded record, at the same
    position. *)
Theorem format_records_field_sets resolve domain record_types keep_a_aaaa :
  (∀ t ttl r i,
     decode_rdata t false ttl r = Some i →
     ∃ e, format_record t i = Some e ∧
          dom e = template t ∧ ∀ k v, e !! k = Some v → is_none v = false) ∧
  ∃ by_type,
    format_records domain (get_records resolve domain record_types false keep_a_aaaa)
    = Some (domain, by_type) ∧
    Forall2 (λ row formatted,
               fst formatted = fst row ∧
               Forall2 (λ record entry,
                          format_record (fst row) record = Some entry ∧
                          dom entry = template (fst row) ∧
                          ∀ k v, entry !! k = Some v → is_none v = false)
                 (snd row) (snd formatted))
      (get_records resolve domain record_types false keep_a_aaaa) by_type.
Proof.
  split; [intros t ttl r i Hd; exact (decode_item_ok t ttl r i Hd)|].
  set (records := get_records resolve domain record_types false keep_a_aaaa).
  pose proof (get_records_ok resolve domain record_types keep_a_aaaa) as Hok.
  fold records in Hok.
  destruct (format_types_ok records [] Hok (Forall_nil_2 _)) as (out & Hout & _).
  exists out. unfold format_records. rewrite Hout. split; [done|].
  rewrite format_types_rows in Hout;
    [|apply get_records_nodup|intros t _; apply not_elem_of_nil].
  destruct (mapM format_row records) as [rows|] eqn:Hrows; [|done].
  simpl in Hout. injection Hout as <-.
  apply mapM_Some_1 in Hrows.
  eapply Forall2_impl; [|exact (Forall2_with_l _ _ _ _ Hrows Hok)].
  intros [t items] [t' entries]. unfold format_row. simpl.
  destruct (mapM (format_record t) items) as [es|] eqn:Hes; [|by intros [? _]].
  simpl. intros [[= <- <-] Hitems]. split; [done|].
  apply mapM_Some_1 in Hes.
  eapply Forall2_impl; [|exact (Forall2_with_l _ _ _ _ Hes Hitems)].
  simpl. intros record entry [Hf (e & He & Hdom & Hnull)].
  rewrite Hf in He. injection He as <-. done.
Qed.

Lemma append_cons a x y : String a x +:+ y = String a (x +:+ y).
Proof. reflexivity. Qed.

Lemma append_nil_l x : "" +:+ x = x.
Proof. reflexivity. Qed.

Ltac append_norm :=
  simpl in *; repeat (rewrite append_nil_l in * || rewrite append_cons in *); simpl in *.

Lemma lstrip_spec c s :
  ∃ n, s = repeat_char c n +:+ lstrip c s ∧ startswith c (lstrip c s) = false.
Proof.
  induction s as [|a s (n & Hs & Hn)]; [by exists 0%nat|].
  simpl. destruct (Ascii.eqb_spec a c) as [->|Hne].
  - exists (S n). split; [append_norm; congruence|done].
  - exists 0%nat. simpl. split; [done|]. by apply Ascii.eqb_neq.
Qed.

Lemma rstrip_spec c s :
  ∃ m, s = rstrip c s +:+ repeat_char c m ∧
       endswith c (rstrip c s) = false ∧
       (startswith c s = false → startswith c (rstrip c s) = false).
Proof.
  induction s as [|a s (m & Hs & He & _)]; [by exists 0%nat|].
  simpl. destruct (rstrip c s) as [|b r] eqn:Hr.
  - destruct (Ascii.eqb a c) eqn:Ha.
    + apply Ascii.eqb_eq in Ha as ->. exists (S m).
      split; [append_norm; congruence|done].
    + exists m. split; [append_norm; congruence|]. simpl. by rewrite Ha.
  - exists m. split; [append_norm; congruence|]. split; [|done].
    simpl in He. done.
Qed.

Lemma strip_spec c s :
  ∃ n m, s = repeat_char c n +:+ strip c s +:+ repeat_char c m ∧
         startswith c (strip c s) = false ∧ endswith c (strip c s) = false.
Proof.
  unfold strip.
  destruct (lstrip_spec c s) as (n & Hs & Hn).
  destruct (rstrip_spec c (lstrip c s)) as (m & Hl & He & Hst).
  exists n, m. split; [|auto]. by rewrite <- Hl.
Qed.

(** X4. The content of an exported TXT entry is the text of the resolver's
    answer without the double quotes at its two ends: the text is some
    quotes, the content, some quotes, and the content neither starts nor
    ends with a quote. Quotes inside the text stay. *)
Theorem txt_content_is_stripped ttl r :
  ∃ i e content n m,
    decode_rdata "TXT" false ttl r = Some i ∧
    format_record "TXT" i = Some e ∧
    e !! "content" = Some (PStr content) ∧
    e !! "ttl" = Some (PStr (str_int ttl)) ∧
    rd_text r = repeat_char dquote n +:+ content +:+ repeat_char dquote m ∧
    startswith dquote content = false ∧
    endswith dquote content = false.
Proof.
  destruct (strip_spec dquote (rd_text r)) as (n & m & Hs & Hst & Hen).
  exists (ITuple [PStr (rd_text r); PInt ttl]).
  eexists _, (strip dquote (rd_text r)), n, m.
  split; [done|]. split; [reflexivity|]. done.
Qed.

Lemma dict_mem_keys {V} (k : string) (d : odict V) :
  k ∈ fst <$> d ↔ dict_mem k d = true.
Proof.
  unfold dict_mem. induction d as [|[k0 v0] d IH]; simpl.
  - split; [by intros ?%elem_of_nil|done].
  - rewrite elem_of_cons, orb_true_iff, IH, String.eqb_eq. naive_solver.
Qed.

Lemma get_records_asked resolve domain record_types raw_output keep_a_aaaa t :
  t ∈ fst <$> get_records resolve domain record_types raw_output keep_a_aaaa →
  t ∈ record_types.
Proof.
  rewrite dict_mem_keys. unfold get_records.
  assert (dict_mem t (query_all resolve domain record_types raw_output []) = true →
          t ∈ record_types) as Hq.
  { rewrite query_all_mem. simpl. intros [Hin _]%andb_true_iff.
    by apply bool_decide_eq_true in Hin. }
  destruct (_ && _); [|done].
  rewrite !dict_mem_pop. intros [_ [_ H]%andb_true_iff]%andb_true_iff. auto.
Qed.

Lemma selected_types_spec a t :
  t ∈ selected_types a →
  t ∈ (if arg_all a then all_types else common_types) ∧
  ∀ excluded, arg_exclude a = Some excluded → t ∉ excluded.
Proof.
  unfold selected_types. destruct (arg_exclude a) as [[|e es]|].
  - intros Ht. split; [done|]. intros ? [= <-]. apply not_elem_of_nil.
  - intros [Hex Ht]%list_elem_of_filter. split; [done|].
    intros ? [= <-]. apply negb_prop_elim in Hex.
    intros Hin. apply Hex. by apply bool_decide_pack.
  - intros Ht. split; [done|]. by intros ?.
Qed.

Lemma format_records_types domain records by_type :
  NoDup (fst <$> records) →
  format_records domain records = Some (domain, by_type) →
  fst <$> by_type = fst <$> records.
Proof.
  intros Hnd. unfold format_records.
  rewrite format_types_rows by (done || intros t _; apply not_elem_of_nil).
  destruct (mapM format_row records) as [rows|] eqn:Hrows; [|done].
  simpl. intros [= <-]. apply mapM_Some_1 in Hrows.
  induction Hrows as [|[t items] [t' entries] ? ? Hrow _ IH]; [done|].
  rewrite !fmap_cons. simpl.
  apply list.NoDup_cons in Hnd as [_ Hnd]. rewrite (IH Hnd). f_equal.
  unfold format_row in Hrow. simpl in Hrow.
  destruct (mapM _ items); simpl in Hrow; congruence.
Qed.

Lemma export_domain_ok resolve a record_types domain :
  ∃ e, export_domain resolve a record_types domain = Some e ∧
       exported_domain e = domain ∧
       ∀ t, t ∈ exported_types e → t ∈ record_types.
Proof.
  unfold export_domain. destruct (arg_raw a) eqn:Hraw.
  - eexists. split; [done|]. split; [done|]. simpl.
    intros t. apply get_records_asked.
  - destruct (format_types_ok
                (get_records resolve domain record_types false (arg_keep_a_aaaa a)) []
                (get_records_ok _ _ _ _) (Forall_nil_2 _)) as (out & Hout & _).
    assert (format_records domain
              (get_records resolve domain record_types false (arg_keep_a_aaaa a))
            = Some (domain, out)) as Hf.
    { unfold format_records. by rewrite Hout. }
    rewrite Hf. simpl. eexists. split; [done|]. split; [done|]. simpl.
    intros t. rewrite (format_records_types _ _ _ (get_records_nodup _ _ _ _ _) Hf).
    apply get_records_asked.
Qed.

(** X5. The export command never fails while formatting. With [--help] it
    exits 0; without a domain on the command line or in the piped text,
    which is split at Unicode white space as [str.split()] does, it
    exits 1; otherwise it dumps one document per domain, in the order
    given, and every record type in a document is one of the selected
    list (the 41 types of [--all] or the six common ones) and none of the
    types given to [--exclude]. *)
Theorem export_main_output resolve a input :
  match main resolve a input with
  | Exit code =>
      code = (if arg_help a then 0 else 1) ∧
      (arg_help a = true ∨ resolved_domains a input = None
       ∨ resolved_domains a input = Some [])
  | Dumped all_records =>
      arg_help a = false ∧
      resolved_domains a input = Some (exported_domain <$> all_records) ∧
      Forall (λ e, ∀ t, t ∈ exported_types e →
                t ∈ (if arg_all a then all_types else common_types) ∧
                ∀ excluded, arg_exclude a = Some excluded → t ∉ excluded)
        all_records
  | Crashed => False
  end.
Proof.
  unfold main. destruct (arg_help a); [by auto|].
  fold (resolved_domains a input).
  destruct (resolved_domains a input) as [[|d ds]|]; [by auto| |by auto].
  assert (∀ domains, ∃ l,
            mapM (export_domain resolve a (selected_types a)) domains = Some l ∧
            exported_domain <$> l = domains ∧
            Forall (λ e, ∀ t, t ∈ exported_types e → t ∈ selected_types a) l)
    as Hall.
  { induction domains as [|x xs (l & Hl & Hd & Ht)]; [by exists []|].
    destruct (export_domain_ok resolve a (selected_types a) x) as (e & He & Hx & Hty).
    exists (e :: l). simpl. rewrite He. simpl. rewrite Hl. simpl.
    split; [done|]. split; [by f_equal|by constructor]. }
  destruct (Hall (d :: ds)) as (l & -> & Hd & Ht).
  split; [done|]. split; [by rewrite Hd|].
  eapply Forall_impl; [|exact Ht]. simpl.
  intros e He t Hin. apply selected_types_spec. auto.
Qed.

(** X16. What an answer is exported as in typed mode. Decoding fails only
    for MX, SRV and NAPTR (an attribute is missing); otherwise the entry
    has the answer's ttl as a decimal string, and: for MX the exchange as
    content and the preference as prio; for SRV the content
    ["<weight> <port> <target>"] and the priority as prio; for NAPTR the
    replacement as content with order and preference; for any other type
    but TXT the text of the answer as content. *)
Theorem exported_entry_values t ttl r :
  match decode_rdata t false ttl r with
  | None => is_prio_type t = true
  | Some i =>
      ∃ e, format_record t i = Some e ∧
        e !! "ttl" = Some (PStr (str_int ttl)) ∧
        (t = "MX" →
         ∃ exchange preference,
           getattr r "exchange" = Some exchange ∧
           getattr r "preference" = Some preference ∧
           e !! "content" = Some (PStr (str exchange)) ∧
           e !! "prio" = Some (PStr (str preference))) ∧
        (t = "SRV" →
         ∃ target priority weight port,
           getattr r "target" = Some target ∧ getattr r "priority" = Some priority ∧
           getattr r "weight" = Some weight ∧ getattr r "port" = Some port ∧
           e !! "content"
           = Some (PStr (str weight +:+ " " +:+ str port +:+ " " +:+ str target)) ∧
           e !! "prio" = Some (PStr (str priority))) ∧
        (t = "NAPTR" →
         ∃ replacement order preference,
           getattr r "replacement" = Some replacement ∧
           getattr r "order" = Some order ∧
           getattr r "preference" = Some preference ∧
           e !! "content" = Some (PStr (str replacement)) ∧
           e !! "order" = Some (PStr (str order)) ∧
           e !! "preference" = Some (PStr (str preference))) ∧
        (is_prio_type t = false → t ≠ "TXT" → e !! "content" = Some (PStr (rd_text r)))
  end.
Proof.
  unfold decode_rdata, format_record.
  destruct (is_prio_type t) eqn:Hp.
  - destruct (String.eqb_spec t "MX") as [->|Hmx].
    { destruct (getattr r "exchange") as [exchange|]; [|done].
      destruct (getattr r "preference") as [preference|]; [|done]. cbn.
      eexists. split; [reflexivity|]. split; [done|].
      split; [intros _; by exists exchange, preference|]. by repeat split. }
    destruct (String.eqb_spec t "SRV") as [->|Hsrv].
    { destruct (getattr r "target") as [target|]; [|done].
      destruct (getattr r "priority") as [priority|]; [|done].
      destruct (getattr r "weight") as [weight|]; [|done].
      destruct (getattr r "port") as [port|]; [|done]. cbn.
      eexists. split; [reflexivity|]. split; [done|]. split; [done|].
      split; [intros _; by exists target, priority, weight, port|]. by repeat split. }
    destruct (getattr r "replacement") as [replacement|]; [|done].
    destruct (getattr r "order") as [order|]; [|done].
    destruct (getattr r "preference") as [preference|]; [|done]. cbn.
    eexists. split; [reflexivity|]. split; [done|]. split; [done|]. split; [done|].
    split; [intros _; by exists replacement, order, preference|]. done.
  - assert (t ≠ "MX" ∧ t ≠ "SRV" ∧ t ≠ "NAPTR") as (Hmx & Hsrv & Hnaptr).
    { repeat split; intros ->; done. }
    destruct (String.eqb_spec t "TXT") as [->|Htxt]; cbn.
    + eexists. split; [reflexivity|]. by repeat split.
    + eexists. split; [reflexivity|]. by repeat split.
Qed.

End ExportMore.

(** ** More on the importer *)

Section ImportMore.
Import DnsImport ImportVocabulary ImportMoreVocabulary.
Context {W : Type}.
Variable post : W → request → response * W.
Variable cred : credentials.

Lemma reconcile_shape (P : request → Prop) domain t name content ttl prio
    force verbose w :
  P (lookup_request cred domain t name) →
  P (create_request cred domain t content ttl prio) →
  (∀ record_id, P (edit_request cred domain t record_id content ttl prio)) →
  ∃ reqs o w',
    reconcile post cred domain t name content ttl prio force verbose w
    = (Ok tt, ((Sent <$> reqs) ++ [Reported name t o])%list, w') ∧
    Forall P reqs ∧
    ∃ rest, reqs = lookup_request cred domain t name :: rest ∧
            (length rest ≤ 1)%nat ∧ Forall (λ r, is_write r = true) rest.
Proof.
  intros Hlookup Hcreate Hedit. unfold reconcile.
  destruct (lookup_value _ _ _ _ _) as [[existing|]|e].
  - destruct force.
    + destruct (existing !! "id") as [record_id|].
      * eexists [_; _], _, _. split; [reflexivity|]. split; [by repeat constructor|].
        eexists [_]. split; [reflexivity|]. split; [done|]. by repeat constructor.
      * eexists [_], _, _. split; [reflexivity|]. split; [by repeat constructor|].
        exists []. split; [reflexivity|]. split; [simpl; lia|constructor].
    + eexists [_], _, _. split; [reflexivity|]. split; [by repeat constructor|].
      exists []. split; [reflexivity|]. split; [simpl; lia|constructor].
  - eexists [_; _], _, _. split; [reflexivity|]. split; [by repeat constructor|].
    eexists [_]. split; [reflexivity|]. split; [done|]. by repeat constructor.
  - eexists [_], _, _. split; [reflexivity|]. split; [by repeat constructor|].
    exists []. split; [reflexivity|]. split; [simpl; lia|constructor].
Qed.

(** X6. [process_record] never raises: whatever the record, the flags and
    the provider's answers, it returns normally after sending the lookup
    and at most one write call, or nothing at all, and its last event is
    the one report it makes about the record. *)
Theorem process_record_always_reports domain t name record force verbose w :
  ∃ reqs o w',
    process_record post cred domain t name record force verbose w
    = (Ok tt, ((Sent <$> reqs) ++ [Reported name t o])%list, w') ∧
    (reqs = [] ∧ w' = w ∧ missing_field t record = Some o
     ∨ ∃ rest, reqs = lookup_request cred domain t name :: rest ∧
               (length rest ≤ 1)%nat ∧ Forall (λ r, is_write r = true) rest).
Proof.
  destruct (missing_field t record) as [o|] eqn:Hm.
  - exists [], o, w. split; [by apply process_record_missing|]. by left.
  - destruct (missing_field_none _ _ Hm) as (content & ttl & Hc & Hl & Hp).
    rewrite (process_record_run post cred _ _ _ _ _ _ _ _ _ Hc Hl Hp).
    destruct (reconcile_shape (λ _, True) domain t name content ttl
                (default PNone (record !! "prio")) force verbose w I I (λ _, I))
      as (reqs & o & w' & Hrun & _ & Hshape).
    exists reqs, o, w'. split; [done|]. by right.
Qed.

Lemma endswith_snoc c s : endswith c (s +:+ String c "") = true.
Proof.
  induction s as [|a s IH]; simpl; [apply Ascii.eqb_refl|].
  destruct (s +:+ String c "") eqn:Hs; [by destruct s|]. done.
Qed.

Lemma dotted_name_endswith domain record :
  name_is_string record = true → endswith "." (dotted_name domain record) = true.
Proof.
  unfold name_is_string, dotted_name.
  destruct (record !! "name") as [[| | |s]|]; try done; simpl; intros _.
  - destruct (endswith "." s) eqn:He; [done|]. apply endswith_snoc.
  - destruct (endswith "." domain) eqn:He; [done|]. apply endswith_snoc.
Qed.

Lemma import_entry_run force verbose domain t record w :
  import_entry post cred force verbose (domain, t, record) w
  = if well_named verbose record
    then process_record post cred domain t (dotted_name domain record) record
           force verbose w
    else (Raise (if name_is_string record then KeyError "content" else AttributeError),
          [], w).
Proof.
  unfold import_entry, well_named.
  destruct (name_is_string record) eqn:Hn; simpl.
  - destruct verbose; simpl.
    + case_bool_decide as Hc.
      * unfold bind. rewrite effective_name_run by done.
        by destruct (process_record _ _ _ _ _ _ _ _ _) as [[? ?] ?].
      * unfold bind, effective_name. unfold name_is_string in Hn.
        assert (record !! "content" = None) as Hnone.
        { destruct (record !! "content"); [|done]. destruct Hc. eauto. }
        destruct (record !! "name") as [[| | |s]|]; try done; simpl;
          unfold bind, getitem; rewrite Hnone; done.
    + unfold bind. rewrite effective_name_run by done.
      by destruct (process_record _ _ _ _ _ _ _ _ _) as [[? ?] ?].
  - unfold bind, effective_name. unfold name_is_string in Hn.
    destruct (record !! "name") as [[| | |s]|]; done.
Qed.

Lemma import_dns_records_import_entry data force verbose w :
  import_dns_records post cred data force verbose w
  = for_each (entries data) (import_entry post cred force verbose) w.
Proof.
  rewrite import_dns_records_entries. apply for_each_ext.
  by intros [[domain t] record] w1.
Qed.

Lemma process_entry_shape force verbose domain t record w :
  well_named verbose record = true →
  ∃ reqs o w',
    process_record post cred domain t (dotted_name domain record) record force verbose w
    = (Ok tt, ((Sent <$> reqs) ++ [Reported (dotted_name domain record) t o])%list, w') ∧
    (length reqs ≤ 2)%nat ∧ (length (filter is_write reqs) ≤ 1)%nat ∧
    Forall (entry_request (domain, t, record)) reqs.
Proof.
  intros [Hn _]%andb_true_iff.
  pose proof (dotted_name_endswith domain record Hn) as Hdot.
  assert (String.eqb (dotted_name domain record) "@" = false) as Hat.
  { destruct (String.eqb_spec (dotted_name domain record) "@") as [He|]; [|done].
    by rewrite He in Hdot. }
  destruct (missing_field t record) as [o|] eqn:Hm.
  - exists [], o, w. split; [by apply process_record_missing|].
    split; [simpl; lia|]. split; [simpl; lia|constructor].
  - destruct (missing_field_none _ _ Hm) as (content & ttl & Hc & Hl & Hp).
    rewrite (process_record_run post cred _ _ _ _ _ _ _ _ _ Hc Hl Hp).
    destruct (reconcile_shape (entry_request (domain, t, record)) domain t
                (dotted_name domain record) content ttl
                (default PNone (record !! "prio")) force verbose w)
      as (reqs & o & w' & Hrun & Hall & rest & -> & Hlen & Hwr).
    1-3: unfold entry_request, lookup_subdomain, lookup_request,
           create_request, edit_request, addressed_root; simpl; rewrite ?Hat; simpl;
         repeat split; try done; by intros s [= <-].
    exists (lookup_request cred domain t (dotted_name domain record) :: rest), o, w'.
    split; [done|]. split; [simpl; lia|]. split; [|done].
    rewrite filter_cons_False by (simpl; intros []).
    etrans; [apply length_filter|done].
Qed.

Lemma requests_app t1 t2 : requests (t1 ++ t2) = (requests t1 ++ requests t2)%list.
Proof. apply omap_app. Qed.

Lemma outcomes_app t1 t2 : outcomes (t1 ++ t2) = (outcomes t1 ++ outcomes t2)%list.
Proof. apply omap_app. Qed.

Lemma reported_app t1 t2 : reported (t1 ++ t2) = (reported t1 ++ reported t2)%list.
Proof. apply omap_app. Qed.

Lemma writes_app t1 t2 : writes (t1 ++ t2) = (writes t1 ++ writes t2)%list.
Proof. unfold writes. by rewrite requests_app, list.filter_app. Qed.

Lemma sent_events reqs :
  requests (Sent <$> reqs) = reqs ∧ outcomes (Sent <$> reqs) = [] ∧
  reported (Sent <$> reqs) = [].
Proof.
  unfold requests, outcomes, reported.
  induction reqs as [|r reqs (Hr & Ho & Hp)]; [done|].
  split; [|split]; [|exact Ho|exact Hp].
  change (r :: omap (λ e, match e with Sent r => Some r | Reported _ _ _ => None end)
                (Sent <$> reqs) = r :: reqs).
  by f_equal.
Qed.

Lemma entry_events reqs name t o :
  let evs := ((Sent <$> reqs) ++ [Reported name t o])%list in
  requests evs = reqs ∧ outcomes evs = [o] ∧ reported evs = [(name, t)] ∧
  writes evs = filter is_write reqs.
Proof.
  destruct (sent_events reqs) as (Hr & Ho & Hp). simpl.
  unfold writes. rewrite requests_app, outcomes_app, reported_app, Hr, Ho, Hp.
  simpl. by rewrite app_nil_r.
Qed.

(** The shape of every run of the loop over entries: the entries before
    the first one that raises each contribute their requests and one
    report; the loop ends normally, or at the first entry that is not
    well named, with nothing sent for it. *)
Lemma entries_run force verbose l w :
  ∃ processed res evs w',
    for_each l (import_entry post cred force verbose) w = (res, evs, w') ∧
    reported evs = reported_as <$> processed ∧
    length (outcomes evs) = length processed ∧
    (length (writes evs) ≤ length processed)%nat ∧
    (length (requests evs) ≤ 2 * length processed)%nat ∧
    Forall (λ r, ∃ entry, entry ∈ processed ∧ entry_request entry r) (requests evs) ∧
    Forall (λ entry, well_named verbose entry.2 = true) processed ∧
    (res = Ok tt ∧ processed = l
     ∨ ∃ domain t record after,
         l = (processed ++ (domain, t, record) :: after)%list ∧
         well_named verbose record = false ∧
         res = Raise (if name_is_string record then KeyError "content"
                      else AttributeError)).
Proof.
  revert w. induction l as [|[[domain t] record] l IH]; intros w.
  - exists [], (Ok tt), [], w.
    split; [done|]. split; [done|]. split; [done|]. split; [simpl; lia|].
    split; [simpl; lia|]. split; [constructor|]. split; [constructor|]. by left.
  - cbn [for_each]. unfold bind. rewrite import_entry_run.
    destruct (well_named verbose record) eqn:Hwn.
    + destruct (process_entry_shape force verbose domain t record w Hwn)
        as (reqs & o & w1 & -> & Hlen & Hwr & Hreq).
      destruct (IH w1) as (processed & res & evs & w' & -> & Hrep & Hout & Hw & Hr
                           & Hall & Hnamed & Hend).
      destruct (entry_events reqs (dotted_name domain record) t o)
        as (Er & Eo & Ep & Ew).
      eexists ((domain, t, record) :: processed), res, _, w'.
      split; [reflexivity|].
      rewrite reported_app, outcomes_app, writes_app, requests_app, Er, Eo, Ep, Ew.
      rewrite !length_app, Hrep. simpl.
      split; [done|]. split; [lia|]. split; [lia|]. split; [lia|].
      split; [|split].
      * apply list.Forall_app. split.
        -- eapply Forall_impl; [|exact Hreq]. simpl. intros r Hr0.
           exists (domain, t, record). split; [left|done].
        -- eapply Forall_impl; [|exact Hall]. simpl.
           intros r (entry & Hin & He). exists entry. split; [by right|done].
      * by constructor.
      * destruct Hend as [[-> ->]|(d' & t' & r' & after & -> & Hbad & ->)];
          [by left|right].
        by exists d', t', r', after.
    + eexists [], _, [], w.
      split; [reflexivity|]. split; [done|]. split; [done|]. split; [simpl; lia|].
      split; [simpl; lia|]. split; [constructor|]. split; [constructor|].
      right. by exists domain, t, record, l.
Qed.

(** X7. Whatever the document, the flags and the provider's answers, an
    import sends at most one write call and at most two requests per
    record and reports at most one outcome per record. Every request
    addresses the root of the domain of a record of the document, and
    every lookup asks for that record's name with its trailing dot: the
    subdomain of a lookup always ends with a dot, so the empty subdomain
    that stands for ["@"] is never asked for. *)
Theorem import_requests_bounded data force verbose w :
  let evs := events (import_dns_records post cred data force verbose w) in
  (length (writes evs) ≤ length (entries data))%nat ∧
  (length (requests evs) ≤ 2 * length (entries data))%nat ∧
  (length (outcomes evs) ≤ length (entries data))%nat ∧
  Forall (λ r, ∃ domain t record,
            (domain, t, record) ∈ entries data ∧
            addressed_root r = root_domain domain ∧
            ∀ s, lookup_subdomain r = Some s →
                 s = dotted_name domain record ∧ endswith "." s = true)
    (requests evs).
Proof.
  simpl. rewrite import_dns_records_import_entry.
  destruct (entries_run force verbose (entries data) w)
    as (processed & res & evs & w' & -> & _ & Hout & Hw & Hr & Hall & Hnamed & Hend).
  unfold events. simpl.
  assert (length processed ≤ length (entries data))%nat as Hlen.
  { destruct Hend as [[_ ->]|(d & t & r & after & -> & _)]; [done|].
    rewrite length_app. lia. }
  assert (∀ entry, entry ∈ processed → entry ∈ entries data) as Hin.
  { destruct Hend as [[_ ->]|(d & t & r & after & -> & _)]; [done|].
    intros entry He. apply elem_of_app. by left. }
  split; [lia|]. split; [lia|]. split; [lia|].
  eapply Forall_impl; [|exact Hall]. simpl.
  intros r ([[domain t] record] & He & Haddr & Hsub).
  exists domain, t, record. split; [by apply Hin|]. split; [done|].
  intros s Hs. rewrite (Hsub s Hs). split; [done|].
  apply dotted_name_endswith.
  rewrite Forall_forall in Hnamed. apply list_elem_of_In in He.
  specialize (Hnamed _ He). simpl in Hnamed.
  by apply andb_true_iff in Hnamed as [? _].
Qed.

(** X8. With the two keys set, when every record of a schema-valid
    document has a string or no name (and, with verbose set, a content),
    the import ends normally and the command exits 0 whatever the
    provider answers, errors and refused writes included; the run
    reports every record once, in document order, under its dotted name
    and type. *)
Theorem import_completes env schema data force verbose w :
  load_credentials env = Some cred →
  validate_json_schema schema data = true →
  Forall (λ entry, well_named verbose entry.2 = true) (entries data) →
  ∃ evs w',
    import_dns_records post cred data force verbose w = (Ok tt, evs, w') ∧
    main post env schema (Parsed data) force verbose w = (0, evs, w') ∧
    reported evs = reported_as <$> entries data.
Proof.
  intros Henv Hvalid Hnamed. unfold main, read_input. rewrite Henv, Hvalid. simpl.
  rewrite import_dns_records_import_entry.
  destruct (entries_run force verbose (entries data) w)
    as (processed & res & evs & w' & -> & Hrep & _ & _ & _ & _ & _ & Hend).
  destruct Hend as [[-> ->]|(d & t & r & after & Hl & Hbad & _)].
  - by exists evs, w'.
  - rewrite Hl in Hnamed. apply list.Forall_app in Hnamed as [_ Hnamed].
    apply list.Forall_cons in Hnamed as [Hr _]. simpl in Hr. congruence.
Qed.

(** X9. With the two keys set, the import stops at the first record
    whose name is not a string (or, with verbose set, that has no
    content): the records before it are processed and reported, nothing
    is sent or reported for it and for the records after it, and the
    command exits 1. *)
Theorem import_stops_at_bad_name env schema data force verbose w before domain t record
    after :
  load_credentials env = Some cred →
  validate_json_schema schema data = true →
  entries data = (before ++ (domain, t, record) :: after)%list →
  Forall (λ entry, well_named verbose entry.2 = true) before →
  well_named verbose record = false →
  ∃ evs w',
    import_dns_records post cred data force verbose w
    = (Raise (if name_is_string record then KeyError "content" else AttributeError),
       evs, w') ∧
    main post env schema (Parsed data) force verbose w = (1, evs, w') ∧
    reported evs = reported_as <$> before ∧
    (length (requests evs) ≤ 2 * length before)%nat.
Proof.
  intros Henv Hvalid Hl Hbefore Hbad. unfold main, read_input.
  rewrite Henv, Hvalid. simpl.
  rewrite import_dns_records_import_entry, Hl.
  destruct (entries_run force verbose (before ++ (domain, t, record) :: after) w)
    as (processed & res & evs & w' & -> & Hrep & _ & _ & Hr & _ & Hnamed & Hend).
  assert (processed = before ∧
          res = Raise (if name_is_string record then KeyError "content"
                       else AttributeError)) as [-> ->].
  { destruct Hend as [[_ ->]|(d' & t' & r' & after' & Heq & Hbad' & ->)].
    - apply list.Forall_app in Hnamed as [_ Hnamed].
      apply list.Forall_cons in Hnamed as [Hr' _]. simpl in Hr'. congruence.
    - assert (processed = before ∧ (d', t', r') = (domain, t, record)) as [-> [= -> -> ->]];
        [|done].
      clear -Heq Hbefore Hnamed Hbad Hbad'.
      revert processed Heq Hnamed.
      induction Hbefore as [|b before Hb _ IH]; intros [|p processed] Heq Hnamed.
      + simpl in Heq. by simplify_eq.
      + simpl in Heq. simplify_eq.
        apply list.Forall_cons in Hnamed as [Hp _]. simpl in Hp. congruence.
      + simpl in Heq. simplify_eq. simpl in Hb. congruence.
      + simpl in Heq. injection Heq as -> Heq.
        apply list.Forall_cons in Hnamed as [_ Hnamed].
        destruct (IH processed Heq Hnamed) as [-> ->]. done. }
  by exists evs, w'.
Qed.

(** X10. A lookup that fails does not stop the record: when the provider
    answers the lookup with a status other than SUCCESS, without a
    status or (verbose unset) with a body that is not JSON, the record
    is taken as absent and a create call follows the lookup, with or
    without force. Only a failed connection, which the lookup does not
    catch, ends the record after the lookup with no write. *)
Theorem failed_lookup_creates domain t name record force verbose w content ttl :
  record !! "content" = Some content →
  record !! "ttl" = Some ttl →
  is_prio_type t && is_none (default PNone (record !! "prio")) = false →
  let answer := (post w (lookup_request cred domain t name)).1 in
  let run := process_record post cred domain t name record force verbose w in
  (unsuccessful verbose answer = true →
   requests (events run)
   = [lookup_request cred domain t name;
      create_request cred domain t content ttl (default PNone (record !! "prio"))]) ∧
  (answer = ConnectionFailed →
   events run = [Sent (lookup_request cred domain t name);
                 Reported name t (Unexpected RequestException)]).
Proof.
  intros Hc Hl Hp. simpl.
  rewrite (process_record_run post cred _ _ _ _ _ _ _ _ _ Hc Hl Hp).
  rewrite requests_reconcile, writes_reconcile. unfold reconcile.
  destruct (post w (lookup_request cred domain t name)) as [resp w1]. simpl.
  split.
  - destruct resp as [| |r]; simpl; [done| |].
    + by destruct verbose.
    + unfold scan_result. destruct (status r) as [st|]; [|done].
      by destruct (eqb st (PStr "SUCCESS")).
  - by intros ->.
Qed.

(** X15. Every edit call [process_record] sends is sent under force and
    carries the credentials, the type, the record's content and ttl and
    the name computed from the domain; it carries prio exactly when the
    record has a prio that is not null, whatever the type, where a create
    call carries prio exactly for MX, SRV and NAPTR. *)
Theorem edit_payload_fields domain t name record force verbose w :
  Forall (λ r,
    (is_edit r = true →
     force = true ∧
     dom (req_json r)
     = write_fields ∪ (if is_none (default PNone (record !! "prio")) then ∅
                       else {["prio"]}) ∧
     req_json r !! "type" = Some (PStr t) ∧
     req_json r !! "content" = record !! "content" ∧
     req_json r !! "ttl" = record !! "ttl" ∧
     req_json r !! "name" = Some (PStr (payload_name domain))) ∧
    (is_create r = true →
     dom (req_json r)
     = write_fields ∪ (if is_prio_type t then {["prio"]} else ∅)))
    (requests (events (process_record post cred domain t name record force verbose w))).
Proof.
  destruct (missing_field t record) as [o|] eqn:Hm.
  { rewrite (process_record_missing post cred _ _ _ _ _ _ _ _ Hm). constructor. }
  destruct (missing_field_none _ _ Hm) as (content & ttl & Hc & Hl & Hp).
  rewrite (process_record_run post cred _ _ _ _ _ _ _ _ _ Hc Hl Hp).
  rewrite requests_reconcile, writes_reconcile.
  constructor; [done|].
  destruct (lookup_value _ _ _ _ _) as [[existing|]|e]; [| |constructor].
  - destruct force; [|constructor].
    destruct (existing !! "id") as [record_id|]; [|constructor].
    constructor; [|constructor]. split; [|done]. intros _.
    split; [done|]. unfold edit_request. cbn [req_json].
    rewrite write_payload_dom.
    destruct (write_payload_lookup cred domain t content ttl
                (if is_none (default PNone (record !! "prio")) then None
                 else Some (default PNone (record !! "prio"))))
      as (Ht & Hcc & Htt & Hnn & _).
    rewrite Hc, Hl. split; [|done].
    unfold write_fields. by destruct (is_none _).
  - constructor; [|constructor]. split; [done|]. intros _.
    unfold create_request. cbn [req_json]. rewrite write_payload_dom.
    unfold write_fields. by destruct (is_prio_type t).
Qed.

(** X13. The root of a root is the root itself, and a root is always
    written under the name ["@"]. Which name a write call carries
    depends on the number of labels of the domain alone: ["@"] for a
    domain of at most two labels, the first label for a longer one. *)
Theorem payload_name_by_labels d :
  root_domain (root_domain d) = root_domain d ∧
  payload_name (root_domain d) = "@" ∧
  payload_name d
  = if bool_decide (length (split "." d) ≤ 2)%nat then "@" else first_label d.
Proof.
  assert (root_domain (root_domain d) = root_domain d) as Hidem.
  { unfold root_domain at 1. rewrite root_domain_split.
    rewrite last_n_short; [done|].
    unfold last_n. rewrite length_drop. lia. }
  split; [done|]. split.
  - unfold payload_name. rewrite Hidem. by rewrite String.eqb_refl.
  - unfold payload_name.
    destruct (split_labels "." d) as (Hne & _ & Hjoin).
    case_bool_decide as Hlen.
    + assert (d = root_domain d) as <-; [|by rewrite String.eqb_refl].
      unfold root_domain. rewrite last_n_short by done. done.
    + destruct (String.eqb_spec d (root_domain d)) as [Heq|]; [|done].
      destruct Hlen. apply last_n_whole; [|done].
      rewrite <- root_domain_split. by rewrite <- Heq.
Qed.

Lemma eqb_refl a : eqb a a = true.
Proof.
  destruct a as [|b|z|s]; simpl; [done|by destruct b|apply Z.eqb_refl|apply String.eqb_refl].
Qed.

Lemma eqb_sym a b : eqb a b = eqb b a.
Proof.
  destruct a as [|x|x|x], b as [|y|y|y]; simpl; try done.
  - by destruct x, y.
  - apply Z.eqb_sym.
  - apply Z.eqb_sym.
  - apply Z.eqb_sym.
  - apply String.eqb_sym.
Qed.

Lemma eqb_trans a b c : eqb a b = true → eqb a c = eqb b c.
Proof.
  destruct a as [|x|x|x], b as [|y|y|y], c as [|z|z|z]; simpl; try done; intros H;
    try apply Z.eqb_eq in H; try apply String.eqb_eq in H;
    try apply Bool.eqb_prop in H; subst; try done.
  all: repeat match goal with b : bool |- _ => destruct b end; done.
Qed.

Lemma vdict_get_eqb {V} k k' (d : vdict V) :
  eqb k k' = true → vdict_get k d = vdict_get k' d.
Proof.
  intros Hk. induction d as [|[k0 v0] d IH]; cbn [vdict_get]; [done|].
  rewrite (eqb_sym k0 k), (eqb_sym k0 k'), (eqb_trans _ _ k0 Hk). by rewrite IH.
Qed.

Lemma vdict_get_set {V} k k' (v : V) d :
  vdict_get k' (vdict_set k v d) = if eqb k k' then Some v else vdict_get k' d.
Proof.
  induction d as [|[k0 v0] d IH]; cbn [vdict_set vdict_get]; [done|].
  destruct (eqb k0 k) eqn:H0; cbn [vdict_get].
  - rewrite (eqb_trans _ _ k' H0). by destruct (eqb k k').
  - rewrite IH. destruct (eqb k k') eqn:Hk; [|done].
    destruct (eqb k0 k') eqn:H0'; [|done].
    rewrite (eqb_trans _ _ k H0'), (eqb_sym k' k), Hk in H0. done.
Qed.

Lemma entry_of_snoc record_datas record_data :
  Some (match entry_of record_datas with
        | Some (Many l) => Many (l ++ [record_data])
        | Some (One first) => Many [first; record_data]
        | None => One record_data
        end)
  = entry_of (record_datas ++ [record_data]).
Proof. by destruct record_datas as [|a [|b l]]. Qed.

Lemma export_record_data_run record :
  exportable record = true → ∃ record_data, export_record_data record = Ok record_data.
Proof.
  unfold exportable, export_record_data, item_of, rbind.
  destruct (record !! "type") as [ty|]; [|done].
  destruct (record !! "name"); [|done].
  destruct (record !! "content") as [content|]; [|done].
  destruct (record !! "ttl") as [ttl|]; [|done]. simpl.
  destruct (eqb ty (PStr "MX")); simpl; [|by eauto].
  destruct (record !! "prio"); [by eauto|]. by case_bool_decide as H; [destruct H|].
Qed.

Lemma export_step_run domain export_data record :
  if exportable record then
    ∃ record_type record_data,
      record !! "type" = Some record_type ∧
      export_record_data record = Ok record_data ∧
      export_step domain export_data record
      = let by_name := default [] (vdict_get record_type export_data) in
        let name := exported_name domain record in
        Ok (vdict_set record_type
              (vdict_set name
                 (match vdict_get name by_name with
                  | Some (Many l) => Many (l ++ [record_data])
                  | Some (One first) => Many [first; record_data]
                  | None => One record_data
                  end) by_name) export_data)
  else ∃ key, export_step domain export_data record = Raise (KeyError key).
Proof.
  destruct (exportable record) eqn:He.
  - destruct (export_record_data_run record He) as [record_data Hd].
    unfold exportable in He. unfold export_step, exported_name, item_of, rbind.
    rewrite Hd.
    destruct (record !! "type") as [ty|]; [|done].
    destruct (record !! "name") as [nm|]; [|done].
    by exists ty, record_data.
  - unfold exportable in He.
    unfold export_step, export_record_data, item_of, rbind.
    destruct (record !! "type") as [ty|]; [|by eauto].
    destruct (record !! "name") as [nm|]; [|by eauto].
    destruct (record !! "content") as [content|]; [|by eauto].
    destruct (record !! "ttl") as [ttl|]; [|by eauto]. simpl in He.
    destruct (eqb ty (PStr "MX")); [|done].
    destruct (record !! "prio"); [|by eauto].
    simpl in He. done.
Qed.

Lemma export_loop_groups domain records :
  ∀ export_data (held : value → value → list (gmap string value)),
    (∀ ty nm, exported_entry ty nm export_data = entry_of (held ty nm)) →
    if forallb exportable records then
      ∃ data, export_loop domain records export_data = Ok data ∧
        ∀ ty nm, exported_entry ty nm data
                 = entry_of (held ty nm ++ selected domain ty nm records)
    else ∃ key, export_loop domain records export_data = Raise (KeyError key).
Proof.
  induction records as [|record rest IH]; intros export_data held Hheld.
  - simpl. exists export_data. split; [done|]. intros ty nm.
    by rewrite app_nil_r.
  - cbn [forallb export_loop selected].
    pose proof (export_step_run domain export_data record) as Hstep.
    destruct (exportable record) eqn:He; cbn [andb].
    2:{ destruct Hstep as [key ->]. by exists key. }
    destruct Hstep as (rt & record_data & Hty & Hd & ->). cbn [rbind].
    rewrite Hty, Hd. cbn [default].
    set (name := exported_name domain record).
    set (by_name := default [] (vdict_get rt export_data)).
    set (held' := λ ty nm,
           (held ty nm ++ if eqb rt ty && eqb name nm then [record_data] else [])%list).
    match goal with
    | |- context [export_loop domain rest ?d] => specialize (IH d held')
    end.
    match type of IH with ?P → _ => assert P as Hnew end.
    { intros ty nm. unfold exported_entry, held'.
      rewrite vdict_get_set. destruct (eqb rt ty) eqn:Ht; cbn [andb mbind option_bind].
      - rewrite vdict_get_set.
        assert (vdict_get nm by_name = exported_entry ty nm export_data) as Hold.
        { unfold exported_entry, by_name. rewrite (vdict_get_eqb _ _ _ Ht).
          by destruct (vdict_get ty export_data). }
        destruct (eqb name nm) eqn:Hn.
        + rewrite (vdict_get_eqb _ _ _ Hn), Hold, Hheld. apply entry_of_snoc.
        + by rewrite Hold, Hheld, app_nil_r.
      - rewrite app_nil_r. apply Hheld. }
    specialize (IH Hnew).
    destruct (forallb exportable rest); [|done].
    destruct IH as (data & -> & Hdata). exists data. split; [done|].
    intros ty nm. rewrite Hdata. unfold held'. rewrite <- app_assoc. f_equal. f_equal.
    unfold id. by destruct (eqb rt ty && eqb name nm).
Qed.

Lemma get_existing_records_run domain verbose w :
  get_existing_records post cred domain verbose w
  = let req := retrieve_request cred domain in
    (match (post w req).1 with
     | ConnectionFailed => Raise RequestException
     | NotJson => if verbose then Raise JSONDecodeError else Ok None
     | Json r =>
         match status r with
         | Some st => if eqb st (PStr "SUCCESS") then Ok (records r) else Ok None
         | None => Ok None
         end
     end, [Sent req], (post w req).2).
Proof.
  unfold get_existing_records, retrieve_request, bind, catch, http_post. simpl.
  destruct (post w _) as [[| |r] w']; simpl; [done| |].
  - by destruct verbose.
  - destruct (status r) as [st|]; simpl.
    + destruct (eqb st (PStr "SUCCESS")); by destruct verbose.
    + by destruct verbose.
Qed.

(** X11. The vendor export files every provider record under its type
    and its name, the name being ["@"] for a record named like the
    domain: what it holds for a type and a name is the [record_data] of
    the records of that type and name in the provider's order, as a
    single dict when there is one and as their list when there are two or
    more. It succeeds exactly when every record carries type, name,
    content and ttl (and prio for MX), and raises KeyError otherwise. *)
Theorem vendor_export_groups domain records :
  if forallb exportable records then
    ∃ data, export_loop domain records [] = Ok data ∧
      ∀ ty nm, exported_entry ty nm data = entry_of (selected domain ty nm records)
  else ∃ key, export_loop domain records [] = Raise (KeyError key).
Proof.
  apply (export_loop_groups domain records [] (λ _ _, [])). done.
Qed.

(** X12. The vendor export sends one request, the retrieval of the root
    domain's records with the two credentials, and never a write. It
    returns a document, keyed by the domain as given, only when the
    provider answers SUCCESS with at least one record; any other answer
    read as JSON, or without verbose a body that is not JSON, gives
    [None]. A failed connection, a body that is not JSON under verbose
    and a record without one of the keys read are the only errors that
    leave the function. *)
Theorem vendor_export_reads_once domain verbose w :
  let req := retrieve_request cred domain in
  let run := export_dns_records_json post cred domain verbose w in
  events run = [Sent req] ∧ run.2 = (post w req).2 ∧ is_write req = false ∧
  match (post w req).1 with
  | ConnectionFailed => run.1.1 = Raise RequestException
  | NotJson => run.1.1 = if verbose then Raise JSONDecodeError else Ok None
  | Json r =>
      match status r, records r with
      | Some st, Some (x :: xs) =>
          if eqb st (PStr "SUCCESS") then
            if forallb exportable (x :: xs) then
              ∃ data, run.1.1 = Ok (Some [(domain, data)]) ∧
                      export_loop domain (x :: xs) [] = Ok data
            else ∃ key, run.1.1 = Raise (KeyError key)
          else run.1.1 = Ok None
      | _, _ => run.1.1 = Ok None
      end
  end.
Proof.
  cbv zeta. unfold export_dns_records_json, bind.
  rewrite get_existing_records_run. cbv zeta.
  destruct (post w (retrieve_request cred domain)) as [resp w1]. cbn [fst snd].
  destruct resp as [| |r]; [done|by destruct verbose|].
  destruct (status r) as [st|]; [|done].
  destruct (eqb st (PStr "SUCCESS")); [|by destruct (records r) as [[|? ?]|]].
  destruct (records r) as [[|x xs]|]; [done| |done].
  pose proof (export_loop_groups domain (x :: xs) [] (λ _ _, []) (λ _ _, eq_refl)) as Hloop.
  destruct (forallb exportable (x :: xs)).
  - destruct Hloop as (data & Hdata & _). unfold lift. rewrite Hdata.
    unfold events. cbn [fst snd ret app].
    split; [done|]. split; [done|]. split; [done|]. by exists data.
  - destruct Hloop as (key & Hkey). unfold lift. rewrite Hkey.
    unfold events. cbn [fst snd app].
    split; [done|]. split; [done|]. split; [done|]. by exists key.
Qed.










Lemma export_record_data_fields vendor :
  exportable vendor = true →
  ∃ ty content ttl record_data,
    vendor !! "type" = Some ty ∧
    vendor !! "content" = Some content ∧
    vendor !! "ttl" = Some ttl ∧
    export_record_data vendor = Ok record_data ∧
    record_data !! "prio" = None ∧
    record_data !! "ttl" = (if is_none ttl then None else Some ttl) ∧
    record_data !! "content"
    = (if eqb ty (PStr "MX")
       then (λ prio, PStr (str prio +:+ " " +:+ str content)) <$> vendor !! "prio"
       else if is_none content then None else Some content).
Proof.
  unfold exportable, export_record_data, item_of, rbind.
  destruct (vendor !! "type") as [ty|]; [|done].
  destruct (vendor !! "name"); [|done].
  destruct (vendor !! "content") as [content|]; [|done].
  destruct (vendor !! "ttl") as [ttl|]; [|done]. cbn.
  destruct (eqb ty (PStr "MX")) eqn:Hmx; cbn.
  - destruct (vendor !! "prio") as [prio|]; [|done]. intros _.
    exists ty, content, ttl. eexists.
    split; [done|]. split; [done|]. split; [done|]. split; [reflexivity|].
    rewrite Hmx. destruct (is_none ttl); cbn; by simplify_map_eq.
  - intros _. exists ty, content, ttl. eexists.
    split; [done|]. split; [done|]. split; [done|]. split; [reflexivity|].
    rewrite Hmx. destruct (is_none ttl), (is_none content); cbn; by simplify_map_eq.
Qed.

Lemma selected_elem domain records vendor ty record_data :
  vendor ∈ records →
  vendor !! "type" = Some ty →
  export_record_data vendor = Ok record_data →
  record_data ∈ selected domain ty (exported_name domain vendor) records.
Proof.
  intros Hin Hty Hd.
  induction records as [|r rest IH]; [by apply elem_of_nil in Hin|].
  cbn [selected]. apply elem_of_cons in Hin as [<-|Hin].
  - rewrite Hty. cbn [default]. rewrite !eqb_refl, Hd. cbn. by left.
  - specialize (IH Hin).
    destruct (_ && _); [|done].
    destruct (export_record_data r); [by right|done].
Qed.

Lemma entry_of_elem record_datas_list record_data :
  record_data ∈ record_datas_list →
  ∃ entry, entry_of record_datas_list = Some entry ∧ record_data ∈ record_datas entry.
Proof.
  destruct record_datas_list as [|a [|b l]]; intros Hin.
  - by apply elem_of_nil in Hin.
  - by exists (One a).
  - by exists (Many (a :: b :: l)).
Qed.

(** C3 (amended). Encoding keeps the fields: every create or edit payload
    [process_record] sends carries the record's content and ttl and, for
    MX, SRV and NAPTR, its prio. Every entry [format_records] decodes for
    a type other than NAPTR has the fields the import requires; a NAPTR
    entry carries order and preference but no prio, so the import
    reports it and sends nothing. When the provider answers the retrieval
    with SUCCESS and records that each carry type, name, content and ttl
    (and prio for MX), [export_dns_records_json] returns a document in
    which every record is filed under its type and its name as a
    [record_data] that has the record's ttl and, for every type but MX,
    its content (a null is left out), never a prio, and for MX the
    content made of the prio, a space and the content. *)
Theorem codec_round_trip domain t name record force verbose w exported w0 vendor_records :
  (post w0 (retrieve_request cred exported)).1
  = Json {| status := Some (PStr "SUCCESS"); records := Some vendor_records |} →
  vendor_records ≠ [] →
  Forall (λ vendor, exportable vendor = true) vendor_records →
  Forall (λ r, is_write r = true →
      req_json r !! "content" = record !! "content" ∧
      req_json r !! "ttl" = record !! "ttl" ∧
      (is_prio_type t = true → req_json r !! "prio" = record !! "prio"))
    (requests (events (process_record post cred domain t name record force verbose w)))
  ∧ (∀ i e, DnsExport.format_record t i = Some e →
       missing_field t e = if String.eqb t "NAPTR" then Some MissingPrio else None)
  ∧ ∃ data,
      (export_dns_records_json post cred exported verbose w0).1.1
      = Ok (Some [(exported, data)]) ∧
      Forall (filed exported data) vendor_records.
Proof.
  intros Hresp Hne Hall. split; [|split].
  - apply (process_record_requests post cred). intros c l Hc Hl Hp.
    assert (is_prio_type t = true →
            Some (default PNone (record !! "prio")) = record !! "prio") as Hprio.
    { intros Ht. rewrite Ht in Hp. simpl in Hp.
      destruct (record !! "prio") as [[]|]; done. }
    split; [done|]. split.
    + intros _. unfold create_request. simpl.
      destruct (write_payload_lookup cred domain t c l
                  (if is_prio_type t
                   then Some (default PNone (record !! "prio")) else None))
        as (_ & -> & -> & _ & Hpr).
      rewrite Hpr, Hc, Hl. repeat split. intros Ht. rewrite Ht. auto.
    + intros record_id _. unfold edit_request. simpl.
      destruct (write_payload_lookup cred domain t c l
                  (if is_none (default PNone (record !! "prio"))
                   then None else Some (default PNone (record !! "prio"))))
        as (_ & -> & -> & _ & Hpr).
      rewrite Hpr, Hc, Hl. repeat split. intros Ht.
      rewrite Ht in Hp. simpl in Hp. rewrite Hp. auto.
  - apply format_record_importable.
  - unfold export_dns_records_json, bind. rewrite get_existing_records_run.
    cbv zeta. rewrite Hresp. cbn [status records].
    change (eqb (PStr "SUCCESS") (PStr "SUCCESS")) with true. cbv iota.
    destruct vendor_records as [|x xs]; [done|].
    pose proof (export_loop_groups exported (x :: xs) [] (λ _ _, [])
                  (λ _ _, eq_refl)) as Hloop.
    assert (forallb exportable (x :: xs) = true) as Hb.
    { apply forallb_forall. intros v Hin. rewrite Forall_forall in Hall.
      by apply Hall. }
    rewrite Hb in Hloop. destruct Hloop as (data & Hdata & Hgroups).
    unfold lift. rewrite Hdata. exists data. split; [done|].
    apply Forall_forall. intros vendor Hin.
    rewrite Forall_forall in Hall. specialize (Hall vendor Hin).
    destruct (export_record_data_fields vendor Hall)
      as (ty & content & ttl & d & Hty & Hco & Httl & Hd & Hpr & Hdt & Hdc).
    apply list_elem_of_In in Hin.
    pose proof (selected_elem exported (x :: xs) vendor ty d Hin Hty Hd) as Hsel.
    destruct (entry_of_elem _ _ Hsel) as (entry & Hentry & Helem).
    exists ty, content, ttl, entry, d.
    rewrite Hgroups. by repeat split.
Qed.

End ImportMore.

(** ** The import command *)

Section ImportCommand.
Import DnsImport ImportVocabulary ImportMoreVocabulary.
Context {W : Type}.
Variable post : W → request → response * W.


End ImportCommand.

(** ** Runs of the further properties *)

Section MoreRuns.
Import DnsImport ImportVocabulary ImportMoreVocabulary Memory.

(** X2: the six common types on the alias resolver. *)
Lemma get_records_types_witness :
  NoDup ExportCommand.common_types ∧
  fst <$> DnsExport.get_records alias_resolver "www.example.com"
            ExportCommand.common_types false false
  = ["CNAME"].
Proof.
  assert (NoDup ExportCommand.common_types) as Hnd.
  { unfold ExportCommand.common_types.
    repeat (apply NoDup_cons_2; [set_solver|]). apply NoDup_nil_2. }
  split; [exact Hnd|].
  rewrite (get_records_types alias_resolver "www.example.com"
             ExportCommand.common_types false false Hnd).
  vm_compute. reflexivity.
Defined.

(** X8: every request fails to connect, and the command still exits 0. *)
Lemma import_completes_witness :
  let data := two_records "example.com" "A" apex_a www_a in
  load_credentials environment = Some keys ∧
  validate_json_schema (Some conforms) data = true ∧
  Forall (λ entry, well_named false entry.2 = true) (entries data) ∧
  ∃ evs w',
    import_dns_records (answering ConnectionFailed) keys data false false tt
    = (Ok tt, evs, w') ∧
    main (answering ConnectionFailed) environment (Some conforms) (Parsed data)
      false false tt
    = (0, evs, w') ∧
    reported evs = [("example.com.", "A"); ("www.", "A")].
Proof.
  assert (Forall (λ entry : string * string * gmap string value,
                    well_named false entry.2 = true)
            (entries (two_records "example.com" "A" apex_a www_a))) as Hnamed.
  { repeat constructor. }
  split; [reflexivity|]. split; [reflexivity|]. split; [exact Hnamed|].
  exact (import_completes (answering ConnectionFailed) keys environment (Some conforms)
           (two_records "example.com" "A" apex_a www_a) false false tt
           eq_refl eq_refl Hnamed).
Defined.

(** X9: the second record has a number as its name. *)
Lemma import_stops_at_bad_name_witness :
  let data := two_records "example.com" "A" apex_a numbered_a in
  load_credentials environment = Some keys ∧
  validate_json_schema (Some conforms) data = true ∧
  entries data = [("example.com", "A", apex_a); ("example.com", "A", numbered_a)] ∧
  well_named false apex_a = true ∧
  well_named false numbered_a = false ∧
  ∃ evs w',
    import_dns_records post keys data false false [] = (Raise AttributeError, evs, w') ∧
    main post environment (Some conforms) (Parsed data) false false [] = (1, evs, w') ∧
    reported evs = [("example.com.", "A")] ∧
    (length (requests evs) ≤ 2)%nat.
Proof.
  assert (Forall (λ entry : string * string * gmap string value,
                    well_named false entry.2 = true)
            [("example.com", "A", apex_a)]) as Hbefore.
  { repeat constructor. }
  split; [reflexivity|]. split; [reflexivity|]. split; [reflexivity|].
  split; [reflexivity|]. split; [reflexivity|].
  exact (import_stops_at_bad_name post keys environment (Some conforms)
           (two_records "example.com" "A" apex_a numbered_a) false false []
           [("example.com", "A", apex_a)] "example.com" "A" numbered_a []
           eq_refl eq_refl eq_refl Hbefore eq_refl).
Defined.

(** X10: the provider answers the lookup with an error status. *)
Lemma failed_lookup_creates_witness :
  let run := process_record (answering refused) keys "example.com" "A" "example.com."
               apex_a false false tt in
  apex_a !! "content" = Some (PStr "192.0.2.1") ∧
  apex_a !! "ttl" = Some (PStr "300") ∧
  is_prio_type "A" && is_none (default PNone (apex_a !! "prio")) = false ∧
  unsuccessful false refused = true ∧
  requests (events run)
  = [lookup_request keys "example.com" "A" "example.com.";
     create_request keys "example.com" "A" (PStr "192.0.2.1") (PStr "300") PNone].
Proof.
  split; [reflexivity|]. split; [reflexivity|]. split; [reflexivity|].
  split; [reflexivity|].
  exact (proj1 (failed_lookup_creates (answering refused) keys "example.com" "A"
                  "example.com." apex_a false false tt (PStr "192.0.2.1") (PStr "300")
                  eq_refl eq_refl eq_refl) eq_refl).
Defined.



(** C3: the MX record a first import stored, read back by the vendor
    export. *)
Lemma codec_round_trip_witness :
  let w0 := created_by (one_record "example.com" "MX" (mail_mx (PStr "10"))) in
  let vendor_records := snd <$> w0 in
  (post w0 (retrieve_request keys "example.com")).1
  = Json {| status := Some (PStr "SUCCESS"); records := Some vendor_records |} ∧
  length vendor_records = 1%nat ∧
  Forall (λ vendor, exportable vendor = true) vendor_records ∧
  ∃ data,
    (export_dns_records_json post keys "example.com" false w0).1.1
    = Ok (Some [("example.com", data)]) ∧
    Forall (filed "example.com" data) vendor_records.
Proof.
  set (w0 := created_by (one_record "example.com" "MX" (mail_mx (PStr "10")))).
  assert ((post w0 (retrieve_request keys "example.com")).1
          = Json {| status := Some (PStr "SUCCESS"); records := Some (snd <$> w0) |})
    as Hresp by (vm_compute; reflexivity).
  assert (snd <$> w0 ≠ []) as Hne by (vm_compute; discriminate).
  assert (Forall (λ vendor, exportable vendor = true) (snd <$> w0)) as Hall.
  { vm_compute. repeat constructor. }
  split; [exact Hresp|]. split; [vm_compute; reflexivity|]. split; [exact Hall|].
  exact (proj2 (proj2 (codec_round_trip post keys "example.com" "MX" "example.com."
                         (mail_mx (PStr "10")) false false [] "example.com" w0
                         (snd <$> w0) Hresp Hne Hall))).
Defined.

(** C5, counterexample to the original wording: an MX record without
    prio whose name is a number, in a document the schema accepts,
    followed by a complete MX record. The import raises at the name of
    the first record: nothing is reported for it, the record after it is
    not processed, and the command exits 1. *)
Lemma missing_prio_with_bad_name_stops_import :
  let data := two_records "example.com" "MX" numbered_mx (mail_mx (PStr "10")) in
  conforms data = true ∧
  is_prio_type "MX" = true ∧
  numbered_mx !! "prio" = None ∧
  import_dns_records post keys data false false [] = (Raise AttributeError, [], []) ∧
  main post environment (Some conforms) (Parsed data) false false [] = (1, [], []).
Proof. vm_compute. repeat split; reflexivity. Qed.

End MoreRuns.
